(** * qrlocal: the public-tunnel subsystem

    A shallow embedding of the Go packages [config], [tunnel] (both the
    current version with named providers and the earlier one that keys on
    the relay host), of the interface scan of [network], of the drawing
    loops of [qr] and of the orchestrator in [main], followed by the
    properties of the tunnel session that the specification states and by
    further properties of the code.

    Conventions.
    - Go strings are byte strings: [string] of the Standard Library.
    - Go [int] and [time.Duration] are [Z]; a duration counts nanoseconds.
    - Instants are [Z], nanoseconds on one clock per invocation.
    - A Go [error] is [option GoError]; [None] is [nil].
    - Everything the operating system or the Go runtime decides (what the
      subprocess prints and when, whether it starts, how fast it dies, which
      ready case a [select] picks) is read from a [World] record, so each
      function of the program is a function of its arguments and the world.
    - Side effects that matter to the specification are recorded as a list
      of [Event]s, oldest first. *)

From Stdlib Require Import ZArith String Ascii List DecimalString DecimalPos Lia Bool.
From stdpp Require Import gmap strings list.

Local Open Scope Z_scope.

(* ===================================================================== *)
(** * Part I. The parts of the Go library the program relies on          *)
(* ===================================================================== *)

Module golib.

(** ** Errors *)

(** What the program observes of an error value: its message, and whether
    [errors.As] finds a [net.Error] or a [*net.DNSError] in its chain. *)
Record GoError : Type := mkError {
  Error      : string;
  asNetError : bool;
  asDNSError : bool
}.

(** [errors.New(msg)] and [fmt.Errorf(msg)] without verbs. *)
Definition errors_New (msg : string) : GoError :=
  {| Error := msg; asNetError := false; asDNSError := false |}.

(** [fmt.Errorf(prefix + "%w", err)]: the message is extended, the chain
    (hence what [errors.As] finds) is kept. *)
Definition Errorf_w (prefix : string) (err : GoError) : GoError :=
  {| Error := prefix +:+ Error err;
     asNetError := asNetError err;
     asDNSError := asDNSError err |}.

Inductive result (A : Type) : Type :=
| Ok  (a : A)
| Err (e : GoError).
Arguments Ok {A} a.
Arguments Err {A} e.

Definition is_Ok {A} (r : result A) : bool :=
  match r with Ok _ => true | Err _ => false end.

(** ** Strings *)

(** The verb [%d] of [fmt.Sprintf] and [strconv.Itoa]. *)
Definition itoa (z : Z) : string := NilZero.string_of_int (Z.to_int z).

Fixpoint HasPrefix (s p : string) {struct p} : bool :=
  match p with
  | EmptyString => true
  | String c p' =>
      match s with
      | EmptyString => false
      | String d s' => if Ascii.eqb c d then HasPrefix s' p' else false
      end
  end.

(** [strings.Contains(s, substr)]. *)
Fixpoint Contains (s substr : string) : bool :=
  HasPrefix s substr ||
  match s with
  | EmptyString => false
  | String _ s' => Contains s' substr
  end.

(** [strconv.Atoi]: an optional sign, then one or more decimal digits;
    the value must fit a 64-bit [int]. *)
Definition digit_val (c : ascii) : option Z :=
  let n := Z.of_nat (nat_of_ascii c) in
  if (48 <=? n) && (n <=? 57) then Some (n - 48) else None.

Fixpoint digits_val (acc : Z) (s : string) : option Z :=
  match s with
  | EmptyString => Some acc
  | String c s' =>
      match digit_val c with
      | Some d => digits_val (10 * acc + d) s'
      | None => None
      end
  end.

Definition unsigned_val (s : string) : option Z :=
  match s with
  | EmptyString => None
  | _ => digits_val 0 s
  end.

Definition int_min : Z := - 2 ^ 63.
Definition int_max : Z := 2 ^ 63 - 1.

Definition Atoi (s : string) : option Z :=
  let v :=
    match s with
    | String "+" s' => unsigned_val s'
    | String "-" s' => option_map Z.opp (unsigned_val s')
    | _ => unsigned_val s
    end in
  match v with
  | Some n => if (int_min <=? n) && (n <=? int_max) then Some n else None
  | None => None
  end.

(** ** Regular expressions

    The fragment of RE2 syntax that the shipped patterns use.  Capturing
    and non-capturing groups only group: [FindString] returns the text of
    the whole match. *)
Inductive Regexp : Type :=
| Eps
| Lit   (c : ascii)
| Class (ranges : list (ascii * ascii))
| Cat   (r1 r2 : Regexp)
| Alt   (r1 r2 : Regexp)
| Plus  (r : Regexp)
| Star  (r : Regexp).

Definition in_range (c : ascii) (rg : ascii * ascii) : bool :=
  (nat_of_ascii (fst rg) <=? nat_of_ascii c)%nat &&
  (nat_of_ascii c <=? nat_of_ascii (snd rg))%nat.

Definition in_class (ranges : list (ascii * ascii)) (c : ascii) : bool :=
  existsb (in_range c) ranges.

(** Greedy iteration of [step]: one more round first, stopping here last.
    A round that consumes nothing is dropped, so [fuel] bounded by the
    length of the input is enough. *)
Fixpoint iter_star (step : string -> list string) (fuel : nat) (s : string)
  : list string :=
  match fuel with
  | O => [s]
  | S fuel' =>
      flat_map (iter_star step fuel')
        (List.filter (fun s' => (String.length s' <? String.length s)%nat)
                (step s))
      ++ [s]
  end.

(** [ends r s]: what is left of [s] after a match of [r] at its start, one
    entry per way of matching, in the order a backtracking matcher finds
    them (leftmost alternative first, longest repetition first). *)
Fixpoint ends (r : Regexp) (s : string) : list string :=
  match r with
  | Eps => [s]
  | Lit c =>
      match s with
      | String d s' => if Ascii.eqb c d then [s'] else []
      | EmptyString => []
      end
  | Class ranges =>
      match s with
      | String d s' => if in_class ranges d then [s'] else []
      | EmptyString => []
      end
  | Cat r1 r2 => flat_map (ends r2) (ends r1 s)
  | Alt r1 r2 => ends r1 s ++ ends r2 s
  | Plus r1 =>
      flat_map (iter_star (ends r1) (String.length s)) (ends r1 s)
  | Star r1 => iter_star (ends r1) (String.length s) s
  end.

(** [FindString] of a compiled pattern: the text of the leftmost match, the empty
    string when there is none (or when the leftmost match is empty). *)
Fixpoint FindString (re : Regexp) (s : string) : string :=
  match ends re s with
  | rest :: _ => substring 0 (String.length s - String.length rest) s
  | [] =>
      match s with
      | EmptyString => EmptyString
      | String _ s' => FindString re s'
      end
  end.


(** [seq rs] is the concatenation of the patterns [rs], nested to the
    right; [lits s] are the characters of [s] as literals. *)
Definition seq (rs : list Regexp) : Regexp := fold_right Cat Eps rs.

Definition lits (s : string) : list Regexp :=
  map Lit (list_ascii_of_string s).


(** What the program takes from the library without the repository
    fixing it: [strings.ToLower] (Unicode case mapping) and
    [regexp.Compile] (the pattern parser). *)
Class Runtime : Type := {
  strings_ToLower : string -> string;
  regexp_Compile  : string -> result Regexp
}.

(** ** One runtime to compute with

    [ascii_ToLower] is [strings.ToLower] on ASCII text.  [subset_Compile]
    parses the syntax that the shipped patterns use (literals, escaped
    punctuation, bracket classes with ranges, groups, [|], and one greedy
    [+], [*] or [?] after an atom) and rejects the rest. *)
Definition ascii_lower (c : ascii) : ascii :=
  let n := nat_of_ascii c in
  if (65 <=? n)%nat && (n <=? 90)%nat then ascii_of_nat (n + 32) else c.

Fixpoint ascii_ToLower (s : string) : string :=
  match s with
  | EmptyString => EmptyString
  | String c s' => String (ascii_lower c) (ascii_ToLower s')
  end.

Definition is_alnum (c : ascii) : bool :=
  in_class [("a", "z"); ("A", "Z"); ("0", "9")]%char c.

Definition escapable (c : ascii) : bool :=
  negb (is_alnum c) && (nat_of_ascii c <? 128)%nat.

Definition is_special (c : ascii) : bool :=
  existsb (Ascii.eqb c) (list_ascii_of_string "\.+*?()|[]{}^$").

Definition is_repeat (c : ascii) : bool :=
  existsb (Ascii.eqb c) (list_ascii_of_string "+*?{").

Fixpoint parse_class (acc : list (ascii * ascii)) (s : string)
  : option (list (ascii * ascii) * string) :=
  match s with
  | EmptyString => None
  | String "]" rest =>
      match acc with
      | [] => None
      | _ => Some (acc, rest)
      end
  | String "\" (String c rest) =>
      if escapable c then parse_class (acc ++ [(c, c)]) rest else None
  | String "\" EmptyString => None
  | String c (String "-" (String "]" rest)) =>
      if Ascii.eqb c "[" then None
      else Some (acc ++ [(c, c); ("-", "-")%char], rest)
  | String c (String "-" (String d rest)) =>
      if Ascii.eqb d "\" || Ascii.eqb c "[" then None
      else if (nat_of_ascii c <=? nat_of_ascii d)%nat
      then parse_class (acc ++ [(c, d)]) rest
      else None
  | String c rest =>
      if Ascii.eqb c "[" || (Ascii.eqb c "^" && match acc with [] => true | _ => false end)
      then None
      else parse_class (acc ++ [(c, c)]) rest
  end.

Definition strip_noncapture (s : string) : string :=
  match s with
  | String "?" (String ":" rest) => rest
  | _ => s
  end.

Definition postfix (r : Regexp) (s : string) : option (Regexp * string) :=
  let once (r' : Regexp) (rest : string) :=
    match rest with
    | String c _ => if is_repeat c then None else Some (r', rest)
    | EmptyString => Some (r', rest)
    end in
  match s with
  | String "+" rest => once (Plus r) rest
  | String "*" rest => once (Star r) rest
  | String "?" rest => once (Alt r Eps) rest
  | String "{" _ => None
  | _ => Some (r, s)
  end.

Inductive Level : Type := LAlt | LCat | LRep.

Fixpoint parse (fuel : nat) (lvl : Level) (s : string)
  : option (Regexp * string) :=
  match fuel with
  | O => None
  | S fuel' =>
      match lvl with
      | LAlt =>
          match parse fuel' LCat s with
          | Some (r1, String "|" rest) =>
              match parse fuel' LAlt rest with
              | Some (r2, rest') => Some (Alt r1 r2, rest')
              | None => None
              end
          | other => other
          end
      | LCat =>
          match s with
          | EmptyString | String "|" _ | String ")" _ => Some (Eps, s)
          | _ =>
              match parse fuel' LRep s with
              | Some (r1, rest) =>
                  match parse fuel' LCat rest with
                  | Some (r2, rest') => Some (Cat r1 r2, rest')
                  | None => None
                  end
              | None => None
              end
          end
      | LRep =>
          match s with
          | String "(" rest =>
              match parse fuel' LAlt (strip_noncapture rest) with
              | Some (r, String ")" rest') => postfix r rest'
              | _ => None
              end
          | String "[" rest =>
              match parse_class [] rest with
              | Some (ranges, rest') => postfix (Class ranges) rest'
              | None => None
              end
          | String "\" (String c rest) =>
              if escapable c then postfix (Lit c) rest else None
          | String c rest =>
              if is_special c then None else postfix (Lit c) rest
          | EmptyString => None
          end
      end
  end.

Definition subset_Compile (expr : string) : result Regexp :=
  match parse (3 * String.length expr + 3) LAlt expr with
  | Some (r, EmptyString) => Ok r
  | _ => Err (errors_New ("error parsing regexp: " +:+ expr))
  end.

Definition subset_runtime : Runtime :=
  {| strings_ToLower := ascii_ToLower; regexp_Compile := subset_Compile |}.

End golib.

(* ===================================================================== *)
(** * Part II. Observable effects and the [select] statement             *)
(* ===================================================================== *)

Module effects.
Import golib.

Inductive PrintKind : Type := PError | PInfo | PSuccess.

Inductive Event : Type :=
| EvDial      (addr : string)
    (** [net.DialTimeout("tcp", addr, _)] *)
| EvStart     (path : string) (args : list string)
    (** [cmd.Start()] on the command [path args] *)
| EvAssignURL (url : string)
    (** [t.publicURL = url], under [t.mu] *)
| EvKill
    (** [t.cmd.Process.Kill()] *)
| EvCancel
    (** the [cancel] function of the tunnel's context *)
| EvPrint     (kind : PrintKind) (msg : string)
| EvRender    (url : string) (isPublic : bool)
| EvClipboard (url : string).

Definition is_start (e : Event) : bool :=
  match e with EvStart _ _ => true | _ => false end.

Definition is_assign (e : Event) : bool :=
  match e with EvAssignURL _ => true | _ => false end.

Definition is_print (e : Event) : bool :=
  match e with EvPrint _ _ => true | _ => false end.

Definition is_tunnel_event (e : Event) : bool :=
  match e with
  | EvStart _ _ | EvAssignURL _ | EvKill | EvCancel => true
  | _ => false
  end.

(** ** What the operating system and the runtime decide *)

Inductive ReadErr : Type :=
| io_EOF
| io_Err (e : GoError).

(** One return of [reader.ReadString('\n')] on the merged output of the
    subprocess, with the instant at which the call returns. *)
Record Read : Type := {
  read_at  : Z;
  line     : string;
  read_err : option ReadErr
}.

Record World : Type := {
  goos_windows    : bool;
    (** [runtime.GOOS == "windows"] *)
  dial            : string -> bool;
    (** [net.DialTimeout("tcp", addr, _)] connects *)
  local_ip        : result string;
    (** [network.GetLocalIP()] *)
  qr_err          : option GoError;
    (** [qr.GenerateQRString] fails *)
  clipboard_err   : option GoError;
    (** [clipboard.WriteAll] fails *)
  signal_at       : option Z;
    (** the first SIGINT or SIGTERM *)
  stdout_pipe_err : option GoError;
  stderr_pipe_err : option GoError;
  start_err       : option GoError;
    (** [cmd.Start()] fails *)
  output          : list Read;
    (** successive reads; after the last one the reader blocks for good *)
  exits_at        : option Z;
    (** the subprocess ends on its own at this instant *)
  kill_latency    : option Z;
    (** from [Process.Kill] to [cmd.Wait] returning; [None]: never *)
  select_pick     : Z -> nat
    (** the runtime's choice at a [select] entered at the given instant *)
}.

(** The subprocess has started: both pipes were created and [Start]
    succeeded. *)
Definition started (w : World) : Prop :=
  stdout_pipe_err w = None /\ stderr_pipe_err w = None /\ start_err w = None.

(** The world [w], but for what [clipboard.WriteAll] answers. *)
Definition with_clipboard_err (e : option GoError) (w : World) : World := {|
  goos_windows := goos_windows w;
  dial := dial w;
  local_ip := local_ip w;
  qr_err := qr_err w;
  clipboard_err := e;
  signal_at := signal_at w;
  stdout_pipe_err := stdout_pipe_err w;
  stderr_pipe_err := stderr_pipe_err w;
  start_err := start_err w;
  output := output w;
  exits_at := exits_at w;
  kill_latency := kill_latency w;
  select_pick := select_pick w
|}.

(** What a call returns, what it did, and when it returned. *)
Record Returned (A : Type) : Type := {
  value       : A;
  events      : list Event;
  returned_at : Z
}.
Arguments value {A} r.
Arguments events {A} r.
Arguments returned_at {A} r.

(** A [select] entered at [now] over the cases [c :: cs], each given with
    the instant at which its channel becomes ready.  A case ready before
    [now] is ready at [now].  The earliest case runs; among several
    ready at the same instant the runtime chooses, which is [pick].
    A channel that never becomes ready is left out of the list. *)
Definition clamp {A} (now : Z) (c : Z * A) : Z * A :=
  (Z.max now (fst c), snd c).

Definition earliest {A} (c : Z * A) (cs : list (Z * A)) : Z :=
  fold_right (fun x m => Z.min (fst x) m) (fst c) cs.

Definition select {A} (pick : nat) (now : Z) (c : Z * A) (cs : list (Z * A))
  : Z * A :=
  let c' := clamp now c in
  let cs' := map (clamp now) cs in
  let m := earliest c' cs' in
  let ready := List.filter (fun x => fst x =? m) (c' :: cs') in
  nth (pick mod length ready)%nat ready c'.

End effects.

(* ===================================================================== *)
(** * Part III. Package [config]                                         *)
(* ===================================================================== *)

Module config.

Record ProviderConfig : Type := {
  Host     : string;
  Port     : Z;
  User     : string;
  URLRegex : string
}.

Record Config : Type := {
  DefaultProvider : string;
  CopyToClipboard : bool;
  QuietMode       : bool;
  Providers       : gmap string ProviderConfig;
  CustomProviders : gmap string ProviderConfig
}.

Definition DefaultConfig : Config := {|
  DefaultProvider := "localhost.run";
  CopyToClipboard := false;
  QuietMode := false;
  Providers :=
    <["localhost.run" :=
        {| Host := "localhost.run"; Port := 22; User := "nokey";
           URLRegex := "https://[a-zA-Z0-9]+\.lhr\.life" |}]>
    (<["pinggy" :=
        {| Host := "a.pinggy.io"; Port := 443; User := "a";
           URLRegex := "https://[a-zA-Z0-9-]+\.a\.free\.pinggy\.link" |}]>
    (<["serveo" :=
        {| Host := "serveo.net"; Port := 22; User := "serveo";
           URLRegex := "Forwarding HTTP traffic from (https://[a-zA-Z0-9-]+\.(?:serveo\.net|serveousercontent\.com))" |}]>
    (<["tunnelto" :=
        {| Host := "tunnel.us.tunnel.to"; Port := 22; User := "tunnel";
           URLRegex := "https://[a-zA-Z0-9-]+\.tunnel\.to" |}]>
     ∅)));
  CustomProviders := ∅
|}.

(** [(c *Config) GetProvider(name)]: the built-in table of the
    configuration first, then the custom one. *)
Definition GetProvider (c : Config) (name : string) : option ProviderConfig :=
  match Providers c !! name with
  | Some p => Some p
  | None =>
      match CustomProviders c !! name with
      | Some p => Some p
      | None => None
      end
  end.

(** [(c *Config) ListProviders()]: the keys of the built-in table, then the
    keys of the custom table with a suffix.  The order in which [range]
    visits a map is chosen by the Go runtime: [range_keys m] is the order
    it picks for the map [m]. *)
Definition ListProviders
    (range_keys : gmap string ProviderConfig -> list string)
    (c : Config) : list string :=
  range_keys (Providers c) ++
  List.map (fun name => name +:+ " (custom)") (range_keys (CustomProviders c)).

(** What the runtime guarantees of [range]: every key once, in some
    order. *)
Definition range_visits_each_key_once
    (range_keys : gmap string ProviderConfig -> list string) : Prop :=
  forall m, range_keys m ≡ₚ (map_to_list m).*1.

(** One such order, for running the code. *)
Definition range_listed (m : gmap string ProviderConfig) : list string :=
  (map_to_list m).*1.

End config.

(* ===================================================================== *)
(** * Part IV. Package [tunnel]                                          *)
(* ===================================================================== *)

Module tunnel.
Import golib effects.

Definition Second : Z := 1000000000.

(** ** Providers *)

Record Provider : Type := {
  Name     : string;
  Host     : string;
  Port     : string;
  User     : string;
  URLRegex : Regexp
}.

Definition alnum : list (ascii * ascii) :=
  [("a", "z"); ("A", "Z"); ("0", "9")]%char.
Definition alnum_dash : list (ascii * ascii) :=
  [("a", "z"); ("A", "Z"); ("0", "9"); ("-", "-")]%char.

(** [https://[a-zA-Z0-9]+\.lhr\.life] *)
Definition LocalhostRun : Provider := {|
  Name := "localhost.run"; Host := "localhost.run"; Port := "22";
  User := "nokey";
  URLRegex := seq (lits "https://" ++ [Plus (Class alnum)] ++ lits ".lhr.life")
|}.

(** [https://[a-zA-Z0-9-]+\.a\.free\.pinggy\.link] *)
Definition Pinggy : Provider := {|
  Name := "pinggy"; Host := "a.pinggy.io"; Port := "443"; User := "a";
  URLRegex :=
    seq (lits "https://" ++ [Plus (Class alnum_dash)]
           ++ lits ".a.free.pinggy.link")
|}.

(** [https://[a-zA-Z0-9]+\.serveo\.net] *)
Definition Serveo : Provider := {|
  Name := "serveo"; Host := "serveo.net"; Port := "22"; User := "serveo";
  URLRegex :=
    seq (lits "https://" ++ [Plus (Class alnum)] ++ lits ".serveo.net")
|}.

(** [https://[a-zA-Z0-9-]+\.tunnel\.to] *)
Definition TunnelTo : Provider := {|
  Name := "tunnelto"; Host := "tunnel.us.tunnel.to"; Port := "22";
  User := "tunnel";
  URLRegex :=
    seq (lits "https://" ++ [Plus (Class alnum_dash)] ++ lits ".tunnel.to")
|}.

Definition ListBuiltinProviders : list string :=
  ["localhost.run"; "pinggy"; "serveo"; "tunnelto"].

(** The labels of the [switch] of [GetProvider]. *)
Definition builtin_names : list string :=
  [ "localhost.run"; "localhostrun"; "pinggy"; "pinggy.io";
    "serveo"; "serveo.net"; "tunnelto"; "tunnel.to" ].

Definition unknown_provider (name : string) : GoError :=
  errors_New ("unknown provider: " +:+ name).

Section WithRuntime.
Context `{Runtime}.

Definition ProviderFromConfig (name : string) (cfg : config.ProviderConfig)
  : result Provider :=
  match regexp_Compile (config.URLRegex cfg) with
  | Err err =>
      Err (Errorf_w ("invalid URL regex for provider " +:+ name +:+ ": ") err)
  | Ok regex =>
      Ok {| Name := name;
            Host := config.Host cfg;
            Port := itoa (config.Port cfg);
            User := config.User cfg;
            URLRegex := regex |}
  end.

(** The [switch] of [GetProvider] over the lower-cased name. *)
Definition builtin (name : string) : option Provider :=
  let n := strings_ToLower name in
  if String.eqb n "localhost.run" || String.eqb n "localhostrun"
  then Some LocalhostRun
  else if String.eqb n "pinggy" || String.eqb n "pinggy.io"
  then Some Pinggy
  else if String.eqb n "serveo" || String.eqb n "serveo.net"
  then Some Serveo
  else if String.eqb n "tunnelto" || String.eqb n "tunnel.to"
  then Some TunnelTo
  else None.

(** [cfg] is a pointer in the source; [None] is [nil]. *)
Definition GetProvider (name : string) (cfg : option config.Config)
  : result Provider :=
  match
    match cfg with
    | Some c => config.GetProvider c name
    | None => None
    end
  with
  | Some provCfg => ProviderFromConfig name provCfg
  | None =>
      match builtin name with
      | Some p => Ok p
      | None => Err (unknown_provider name)
      end
  end.

(** ** Classifying a start failure *)

Definition networkPatterns : list string :=
  [ "no such host";
    "connection refused";
    "network is unreachable";
    "no route to host";
    "connection timed out";
    "i/o timeout";
    "executable file not found" ].

Definition isNetworkError (err : option GoError) : bool :=
  match err with
  | None => false
  | Some e =>
      if asNetError e then true
      else if asDNSError e then true
      else existsb (Contains (strings_ToLower (Error e))) networkPatterns
  end.

End WithRuntime.

(** ** The session *)

Record Cmd : Type := {
  Path    : string;
  Args    : list string;
  Process : bool   (** [cmd.Process != nil]: [Start] has succeeded *)
}.

Record Tunnel : Type := mkTunnel {
  cmd       : option Cmd;  (** [nil] until [connect] builds the command *)
  publicURL : string;
  localPort : Z;
  ctx       : option Z;    (** the instant the context was cancelled *)
  provider  : Provider;
  killed    : option Z;    (** the instant of the first [Process.Kill] *)
  monitored : bool         (** the goroutine that closes [done] once
                               [cmd.Wait] returns has been started *)
}.

Record Config : Type := {
  LocalPort : Z;
  Provider_ : Provider;
  Timeout   : Z
}.

(** The failures of the session, by the messages the source gives them. *)
Definition TunnelUnreachable : GoError :=
  errors_New "unable to connect to tunneling service: please check your internet connection".
Definition LaunchFailed (err : GoError) : GoError :=
  Errorf_w "failed to start SSH tunnel: " err.
Definition NoURLProduced : GoError :=
  errors_New "SSH connection closed without providing URL".
Definition ReadFailed (err : GoError) : GoError :=
  Errorf_w "error reading output: " err.
Definition ConnectTimeout : GoError :=
  errors_New "timeout waiting for tunnel URL".
Definition Cancelled : GoError := errors_New "tunnel cancelled".
Definition CloseTimeout : GoError :=
  errors_New "timeout waiting for tunnel cleanup".

(** ** [connect] *)

(** Lines 159-165: the remote-forward specification. *)
Definition remoteForward (p : Provider) (localPort : Z) : string :=
  if String.eqb (Name p) "pinggy"
  then "0:localhost:" +:+ itoa localPort
  else "80:localhost:" +:+ itoa localPort.

(** Lines 166-179: the argument vector.  [int(timeout.Seconds())]
    truncates toward zero. *)
Definition sshArgs (p : Provider) (localPort timeout : Z) : list string :=
  let remoteForward := remoteForward p localPort in
  let userHost := User p +:+ "@" +:+ Host p in
  let args :=
    [ "-o"; "StrictHostKeyChecking=no";
      "-o"; "UserKnownHostsFile=/dev/null";
      "-o"; "LogLevel=ERROR";
      "-o"; "ConnectTimeout=" +:+ itoa (Z.quot timeout Second) ] in
  let args :=
    if negb (String.eqb (Port p) "22") then args ++ ["-p"; Port p] else args in
  args ++ ["-R"; remoteForward; userHost].

(** The goroutine that reads the output, lines 208-228: what it sends,
    on which channel, and when. *)
Inductive Scan : Type :=
| SentURL (at_ : Z) (url : string)
| SentErr (at_ : Z) (err : GoError)
| Silent.

Fixpoint scan (re : Regexp) (reads : list Read) : Scan :=
  match reads with
  | [] => Silent
  | r :: rest =>
      let found := FindString re (line r) in
      if (0 <? String.length (line r))%nat && negb (String.eqb found EmptyString)
      then SentURL (read_at r) found
      else
        match read_err r with
        | Some io_EOF => SentErr (read_at r) NoURLProduced
        | Some (io_Err e) => SentErr (read_at r) (ReadFailed e)
        | None => scan re rest
        end
  end.

(** The cases of the [select] of lines 235-256. *)
Inductive Case : Type :=
| CaseURL (url : string)
| CaseErr (err : GoError)
| CaseTimer
| CaseDone.

Definition scan_cases (s : Scan) : list (Z * Case) :=
  match s with
  | SentURL a url => [(a, CaseURL url)]
  | SentErr a err => [(a, CaseErr err)]
  | Silent => []
  end.

Definition ctx_cases (c : option Z) : list (Z * Case) :=
  match c with
  | Some a => [(a, CaseDone)]
  | None => []
  end.

Definition with_cmd (t : Tunnel) (c : Cmd) : Tunnel :=
  mkTunnel (Some c) (publicURL t) (localPort t) (ctx t) (provider t)
           (killed t) (monitored t).

Definition with_url (t : Tunnel) (url : string) : Tunnel :=
  mkTunnel (cmd t) url (localPort t) (ctx t) (provider t)
           (killed t) true.

(** A second [Kill] finds the process already signalled. *)
Definition kill (t : Tunnel) (now : Z) : Tunnel :=
  mkTunnel (cmd t) (publicURL t) (localPort t) (ctx t) (provider t)
           (match killed t with Some k => Some k | None => Some now end)
           (monitored t).

(** [cancel] is idempotent: only the first call cancels. *)
Definition cancel (t : Tunnel) (now : Z) : Tunnel :=
  mkTunnel (cmd t) (publicURL t) (localPort t)
           (match ctx t with Some c => Some c | None => Some now end)
           (provider t) (killed t) (monitored t).

(** Lines 132-134 of [NewTunnel]: a zero timeout becomes 30 seconds. *)
Definition timeout_of (cfg : Config) : Z :=
  if Timeout cfg =? 0 then 30 * Second else Timeout cfg.

(** The literal [&Tunnel{...}] of [NewTunnel], lines 138-144: no command,
    no URL, a context that is not cancelled, [done] open. *)
Definition fresh (cfg : Config) : Tunnel :=
  {| cmd := None; publicURL := EmptyString; localPort := LocalPort cfg;
     ctx := None; provider := Provider_ cfg;
     killed := None; monitored := false |}.

Section WithRuntime.
Context `{Runtime}.

(** [connect] is entered at instant 0. *)
Definition connect (w : World) (t : Tunnel) (timeout : Z)
  : Returned (option GoError * Tunnel) :=
  let args := sshArgs (provider t) (localPort t) timeout in
  let sshCmd := if goos_windows w then "ssh.exe" else "ssh" in
  let t := with_cmd t {| Path := sshCmd; Args := args; Process := false |} in
  match stdout_pipe_err w with
  | Some err =>
      {| value := (Some (Errorf_w "failed to get stdout pipe: " err), t);
         events := []; returned_at := 0 |}
  | None =>
  match stderr_pipe_err w with
  | Some err =>
      {| value := (Some (Errorf_w "failed to get stderr pipe: " err), t);
         events := []; returned_at := 0 |}
  | None =>
  match start_err w with
  | Some err =>
      {| value :=
           (Some (if isNetworkError (Some err)
                  then TunnelUnreachable
                  else LaunchFailed err), t);
         events := [EvStart sshCmd args]; returned_at := 0 |}
  | None =>
      let t := with_cmd t {| Path := sshCmd; Args := args; Process := true |} in
      let sent := scan (URLRegex (provider t)) (output w) in
      match
        select (select_pick w 0) 0 (timeout, CaseTimer)
               (scan_cases sent ++ ctx_cases (ctx t))
      with
      | (now, CaseURL url) =>
          {| value := (None, with_url t url);
             events := [EvStart sshCmd args; EvAssignURL url];
             returned_at := now |}
      | (now, CaseErr err) =>
          {| value := (Some err, kill t now);
             events := [EvStart sshCmd args; EvKill];
             returned_at := now |}
      | (now, CaseTimer) =>
          {| value := (Some ConnectTimeout, kill t now);
             events := [EvStart sshCmd args; EvKill];
             returned_at := now |}
      | (now, CaseDone) =>
          {| value := (Some Cancelled, kill t now);
             events := [EvStart sshCmd args; EvKill];
             returned_at := now |}
      end
  end end end.

Definition NewTunnel (w : World) (cfg : Config)
  : Returned (result Tunnel) :=
  let timeout := timeout_of cfg in
  let tunnel := fresh cfg in
  let r := connect w tunnel timeout in
  match value r with
  | (Some err, _) =>
      {| value := Err err; events := events r ++ [EvCancel];
         returned_at := returned_at r |}
  | (None, tunnel) =>
      {| value := Ok tunnel; events := events r;
         returned_at := returned_at r |}
  end.

End WithRuntime.

Definition PublicURL (t : Tunnel) : string := publicURL t.

(** The instant at which [done] is closed: the monitoring goroutine closes
    it when [cmd.Wait] returns, that is when the subprocess has ended, on
    its own or [kill_latency] after the first [Kill]. *)
Definition earlier (a b : option Z) : option Z :=
  match a, b with
  | Some x, Some y => Some (Z.min x y)
  | Some x, None => Some x
  | None, b => b
  end.

Definition reaped_at (w : World) (t : Tunnel) : option Z :=
  earlier (exits_at w)
          (match killed t, kill_latency w with
           | Some k, Some d => Some (k + Z.max 0 d)
           | _, _ => None
           end).

Definition done_closed_at (w : World) (t : Tunnel) : option Z :=
  if monitored t then reaped_at w t else None.

Definition done_cases (d : option Z) : list (Z * option GoError) :=
  match d with
  | Some a => [(a, None)]
  | None => []
  end.

(** [Close], called at instant [now]. *)
Definition Close (w : World) (t : Tunnel) (now : Z)
  : Returned (option GoError * Tunnel) :=
  let t := cancel t now in
  let kills :=
    match cmd t with
    | Some c => Process c
    | None => false
    end in
  let t := if kills then kill t now else t in
  let r :=
    select (select_pick w now) now (now + 5 * Second, Some CloseTimeout)
           (done_cases (done_closed_at w t)) in
  {| value := (snd r, t);
     events := EvCancel :: (if kills then [EvKill] else []);
     returned_at := fst r |}.

(** [Wait], called at instant [now]: the instant it returns, if ever. *)
Definition Wait (w : World) (t : Tunnel) (now : Z) : option Z :=
  option_map (Z.max now) (done_closed_at w t).

(** ** A session in use

    What the owner of an established session can call, and the session
    and events after a sequence of such calls. *)
Inductive Op : Type :=
| OpPublicURL
| OpWait  (now : Z)
| OpClose (now : Z).

Definition apply (w : World) (t : Tunnel) (op : Op) : Tunnel * list Event :=
  match op with
  | OpPublicURL => (t, [])
  | OpWait _ => (t, [])
  | OpClose now => let r := Close w t now in (snd (value r), events r)
  end.

Fixpoint run (w : World) (t : Tunnel) (ops : list Op) : Tunnel * list Event :=
  match ops with
  | [] => (t, [])
  | op :: ops' =>
      let '(t1, ev1) := apply w t op in
      let '(t2, ev2) := run w t1 ops' in
      (t2, ev1 ++ ev2)
  end.

(** ** The connectivity probe *)

Definition IsOnline (w : World) : bool * list Event :=
  (dial w "1.1.1.1:443", [EvDial "1.1.1.1:443"]).

(** A read that brings neither a match nor an error. *)
Definition quiet_read (re : Regexp) (r : Read) : Prop :=
  FindString re (line r) = EmptyString /\ read_err r = None.

(** A session that is established, in a world where the subprocess does not
    end on its own. *)
Definition live_session (w : World) (t : Tunnel) : Prop :=
  monitored t = true /\
  (exists c, cmd t = Some c /\ Process c = true) /\
  killed t = None /\
  exits_at w = None.

End tunnel.

(* ===================================================================== *)
(** * Part V. The earlier version of package [tunnel]                    *)
(* ===================================================================== *)

(** The earlier file differs from [tunnel] in three places: a provider has
    no name, there are two built-in providers and no lookup, and [connect]
    chooses the remote-forward specification by the relay host.  The rest
    of [connect], [Close], [Wait] and [isNetworkError] is the same text. *)
Module tunnel_v0.
Import golib.

Record Provider : Type := {
  Host     : string;
  Port     : string;
  User     : string;
  URLRegex : Regexp
}.

Definition LocalhostRun : Provider := {|
  Host := "localhost.run"; Port := "22"; User := "nokey";
  URLRegex := tunnel.URLRegex tunnel.LocalhostRun
|}.

Definition Pinggy : Provider := {|
  Host := "a.pinggy.io"; Port := "443"; User := "a";
  URLRegex := tunnel.URLRegex tunnel.Pinggy
|}.

(** Lines 92-99. *)
Definition remoteForward (p : Provider) (localPort : Z) : string :=
  if String.eqb (Host p) "a.pinggy.io"
  then "0:localhost:" +:+ itoa localPort
  else "80:localhost:" +:+ itoa localPort.

(** Lines 100-115. *)
Definition sshArgs (p : Provider) (localPort timeout : Z) : list string :=
  let remoteForward := remoteForward p localPort in
  let userHost := User p +:+ "@" +:+ Host p in
  let args :=
    [ "-o"; "StrictHostKeyChecking=no";
      "-o"; "UserKnownHostsFile=/dev/null";
      "-o"; "LogLevel=ERROR";
      "-o"; "ConnectTimeout=" +:+ itoa (Z.quot timeout tunnel.Second) ] in
  let args :=
    if negb (String.eqb (Port p) "22") then args ++ ["-p"; Port p] else args in
  args ++ ["-R"; remoteForward; userHost].

End tunnel_v0.

(* ===================================================================== *)
(** * Part VI. Package [network]                                         *)
(* ===================================================================== *)

Module network.
Import golib effects.

Definition IsPortActive (w : World) (port : Z) : bool * list Event :=
  let addr := "127.0.0.1:" +:+ itoa port in
  (dial w addr, [EvDial addr]).

Definition GenerateLocalURL (w : World) (port : Z) : result string :=
  match local_ip w with
  | Err err => Err err
  | Ok ip => Ok ("http://" +:+ ip +:+ ":" +:+ itoa port)
  end.

(** ** The parts of package [net] that the interface scan relies on *)

(** [net.IP] is a byte slice; [None] is the nil slice. *)
Definition IP : Type := option (list Byte.byte).

Definition len (ip : IP) : nat :=
  match ip with
  | Some b => length b
  | None => O
  end.

Definition bytes (ip : IP) : list Byte.byte :=
  match ip with
  | Some b => b
  | None => []
  end.

Definition IPv4len : nat := 4.
Definition IPv6len : nat := 16.

Definition v4InV6Prefix : list Byte.byte :=
  [Byte.x00; Byte.x00; Byte.x00; Byte.x00; Byte.x00; Byte.x00;
   Byte.x00; Byte.x00; Byte.x00; Byte.x00; Byte.xff; Byte.xff].

Definition IPv6loopback : IP :=
  Some [Byte.x00; Byte.x00; Byte.x00; Byte.x00; Byte.x00; Byte.x00;
        Byte.x00; Byte.x00; Byte.x00; Byte.x00; Byte.x00; Byte.x00;
        Byte.x00; Byte.x00; Byte.x00; Byte.x01].

(** [bytealg.Equal]. *)
Fixpoint bytes_Equal (a b : list Byte.byte) : bool :=
  match a, b with
  | [], [] => true
  | x :: a', y :: b' => Byte.eqb x y && bytes_Equal a' b'
  | _, _ => false
  end.

Definition isZeros (p : list Byte.byte) : bool :=
  forallb (Byte.eqb Byte.x00) p.

(** [ip.To4()]: a 4-byte address is returned as it is, a 16-byte address
    with the IPv4-in-IPv6 prefix gives its last four bytes, anything else
    gives nil. *)
Definition To4 (ip : IP) : IP :=
  if (len ip =? IPv4len)%nat then ip
  else if (len ip =? IPv6len)%nat &&
          isZeros (firstn 10 (bytes ip)) &&
          Byte.eqb (nth 10 (bytes ip) Byte.x00) Byte.xff &&
          Byte.eqb (nth 11 (bytes ip) Byte.x00) Byte.xff
       then Some (firstn 4 (skipn 12 (bytes ip)))
       else None.

(** [ip.Equal(x)]. *)
Definition Equal (ip x : IP) : bool :=
  if (len ip =? len x)%nat then bytes_Equal (bytes ip) (bytes x)
  else if (len ip =? IPv4len)%nat && (len x =? IPv6len)%nat then
    bytes_Equal (firstn 12 (bytes x)) v4InV6Prefix &&
    bytes_Equal (bytes ip) (skipn 12 (bytes x))
  else if (len ip =? IPv6len)%nat && (len x =? IPv4len)%nat then
    bytes_Equal (firstn 12 (bytes ip)) v4InV6Prefix &&
    bytes_Equal (skipn 12 (bytes ip)) (bytes x)
  else false.

(** [ip.IsLoopback()].  [ip4] has four bytes, so [ip4[0]] is in range. *)
Definition IsLoopback (ip : IP) : bool :=
  match To4 ip with
  | Some ip4 => Byte.eqb (nth 0 ip4 Byte.x00) Byte.x7f
  | None => Equal ip IPv6loopback
  end.

Definition ubyte (b : Byte.byte) : Z := Z.of_N (Byte.to_N b).

(** [ip.String()] at an address whose [To4()] is [p4], not nil: the dotted
    notation of the four bytes of [p4]. *)
Definition dotted (p4 : list Byte.byte) : string :=
  itoa (ubyte (nth 0 p4 Byte.x00)) +:+ "." +:+
  itoa (ubyte (nth 1 p4 Byte.x00)) +:+ "." +:+
  itoa (ubyte (nth 2 p4 Byte.x00)) +:+ "." +:+
  itoa (ubyte (nth 3 p4 Byte.x00)).

(** [net.Addr] is an interface; the scan looks at two of its
    implementations. *)
Inductive Addr : Type :=
| IPNet  (ip : IP) (mask : list Byte.byte)
| IPAddr (ip : IP) (zone : string)
| OtherAddr.

(** [net.Flags]: [FlagUp = 1 << 0], [FlagLoopback = 1 << 2]. *)
Definition FlagUp : Z := 1.
Definition FlagLoopback : Z := 4.

(** [net.Interface], with what its method [Addrs] returns. *)
Record Interface : Type := {
  Flags : Z;
  Addrs : result (list Addr)
}.

(** ** The interface scan *)

(** The inner loop of [getLocalIPFromInterfaces]. *)
Fixpoint scan_addrs (addrs : list Addr) : option string :=
  match addrs with
  | [] => None
  | addr :: rest =>
      let ip :=
        match addr with
        | IPNet ip _ => ip
        | IPAddr ip _ => ip
        | OtherAddr => None
        end in
      match ip with
      | None => scan_addrs rest
      | Some _ =>
          if IsLoopback ip then scan_addrs rest
          else
            match To4 ip with
            | Some p4 => Some (dotted p4)
            | None => scan_addrs rest
            end
      end
  end.

(** The outer loop. *)
Fixpoint scan_interfaces (interfaces : list Interface) : option string :=
  match interfaces with
  | [] => None
  | iface :: rest =>
      if negb (Z.land (Flags iface) FlagLoopback =? 0) ||
         (Z.land (Flags iface) FlagUp =? 0)
      then scan_interfaces rest
      else
        match Addrs iface with
        | Err _ => scan_interfaces rest
        | Ok addrs =>
            match scan_addrs addrs with
            | Some ip => Some ip
            | None => scan_interfaces rest
            end
        end
  end.

Definition NoLocalIP : GoError :=
  errors_New "no suitable local IP address found".

(** [interfaces] is what [net.Interfaces()] returns. *)
Definition getLocalIPFromInterfaces (interfaces : result (list Interface))
  : result string :=
  match interfaces with
  | Err err => Err (Errorf_w "failed to get network interfaces: " err)
  | Ok ifaces =>
      match scan_interfaces ifaces with
      | Some ip => Ok ip
      | None => Err NoLocalIP
      end
  end.

(** *** What the scan looks for *)

(** The address [ip] is the IPv4 address [a.b.c.d], in either of its two
    representations. *)
Definition is_v4 (ip : IP) (a b c d : Byte.byte) : Prop :=
  ip = Some [a; b; c; d] \/ ip = Some (v4InV6Prefix ++ [a; b; c; d]).

(** The address that [addr] carries. *)
Definition addr_ip (addr : Addr) : IP :=
  match addr with
  | IPNet ip _ => ip
  | IPAddr ip _ => ip
  | OtherAddr => None
  end.

(** [addr] carries the IPv4 address [a.b.c.d], not in 127.0.0.0/8. *)
Definition usable_as (addr : Addr) (a b c d : Byte.byte) : Prop :=
  is_v4 (addr_ip addr) a b c d /\ a <> Byte.x7f.

Definition usable (addr : Addr) : Prop :=
  exists a b c d, usable_as addr a b c d.

(** [iface] is up, is not a loopback interface, and lists [addrs]. *)
Definition lists (iface : Interface) (addrs : list Addr) : Prop :=
  Z.testbit (Flags iface) 0 = true /\
  Z.testbit (Flags iface) 2 = false /\
  Addrs iface = Ok addrs.

End network.

(* ===================================================================== *)
(** * Part VI-b. Package [qr]: the drawing of the code                    *)
(* ===================================================================== *)

Module qr.
Import golib.

(** The character for two modules, one above the other. *)
Definition block (upper lower : bool) : string :=
  if upper && lower then "█"
  else if upper && negb lower then "▀"
  else if negb upper && lower then "▄"
  else " ".

(** [bitmap[y][x]]; [None] is the index-out-of-range panic. *)
Definition index2 (bitmap : list (list bool)) (y x : nat) : option bool :=
  match bitmap !! y with
  | Some row => row !! x
  | None => None
  end.

(** The two modules that one character of line [y] shows. *)
Definition cell (bitmap : list (list bool)) (size y x : nat)
  : option (bool * bool) :=
  match index2 bitmap y x with
  | Some upper =>
      if (y + 1 <? size)%nat then
        match index2 bitmap (y + 1) x with
        | Some lower => Some (upper, lower)
        | None => None
        end
      else Some (upper, false)
  | None => None
  end.

(** The inner loop, [n] iterations from column [x]. *)
Fixpoint columns (bitmap : list (list bool)) (size y n x : nat)
  : option string :=
  match n with
  | O => Some EmptyString
  | S n' =>
      match cell bitmap size y x with
      | Some (upper, lower) =>
          match columns bitmap size y n' (S x) with
          | Some rest => Some (block upper lower +:+ rest)
          | None => None
          end
      | None => None
      end
  end.

(** The outer loop, [n] iterations from row [y]. *)
Fixpoint rows (bitmap : list (list bool)) (size n y : nat) : option string :=
  match n with
  | O => Some EmptyString
  | S n' =>
      match columns bitmap size y size 0 with
      | Some line =>
          match rows bitmap size n' (y + 2) with
          | Some rest => Some (line +:+ String "010" rest)
          | None => None
          end
      | None => None
      end
  end.

(** The loops of [GenerateQRString] on the bitmap of the code: [y] runs
    over 0, 2, 4, ... below [size]. *)
Definition draw (bitmap : list (list bool)) : option string :=
  let size := length bitmap in
  rows bitmap size (Nat.div2 (size + 1)) 0.

(** [encode url] is the bitmap of [qrcode.New(url, qrcode.Medium)], or its
    error.  [None] is a panic. *)
Definition GenerateQRString
    (encode : string -> result (list (list bool))) (url : string)
  : option (result string) :=
  match encode url with
  | Err err => Some (Err err)
  | Ok bitmap =>
      match draw bitmap with
      | Some s => Some (Ok s)
      | None => None
      end
  end.

(** A bitmap with as many columns in every row as it has rows. *)
Definition square (bitmap : list (list bool)) : Prop :=
  List.Forall (fun row => length row = length bitmap) bitmap.

End qr.

(* ===================================================================== *)
(** * Part VII. The orchestrator, package [main]                         *)
(* ===================================================================== *)

Module main.
Import golib effects.

(** The package-level variables, and the clock.  Instant 0 is the call of
    [tunnel.NewTunnel]; what runs before it takes no time. *)
Record State : Type := mkState {
  publicFlag   : bool;
  copyFlag     : bool;
  quietFlag    : bool;
  providerFlag : string;
  cfg          : config.Config;
    (** set by [PersistentPreRunE] before [runQRLocal] runs *)
  activeTunnel : option tunnel.Tunnel;
  clock        : Z
}.

(** A computation reads and writes the state and appends events; it
    yields [None] when it blocks for good. *)
Definition M (A : Type) : Type := State -> option A * State * list Event.

Definition ret {A} (a : A) : M A := fun s => (Some a, s, []).

Definition bind {A B} (m : M A) (k : A -> M B) : M B :=
  fun s =>
    match m s with
    | (Some a, s1, ev1) =>
        match k a s1 with
        | (b, s2, ev2) => (b, s2, ev1 ++ ev2)
        end
    | (None, s1, ev1) => (None, s1, ev1)
    end.

Notation "x <- m ;; k" := (bind m (fun x => k))
  (at level 100, m at next level, k at level 200, right associativity).
Notation "m ;;; k" := (bind m (fun _ => k))
  (at level 100, k at level 200, right associativity).

Definition get : M State := fun s => (Some s, s, []).
Definition put (s : State) : M unit := fun _ => (Some tt, s, []).
Definition emit (evs : list Event) : M unit := fun s => (Some tt, s, evs).
Definition block {A} : M A := fun s => (None, s, []).

Definition set_quiet (s : State) : State :=
  mkState (publicFlag s) (copyFlag s) true (providerFlag s) (cfg s)
          (activeTunnel s) (clock s).
Definition set_copy (s : State) : State :=
  mkState (publicFlag s) true (quietFlag s) (providerFlag s) (cfg s)
          (activeTunnel s) (clock s).
Definition set_tunnel (t : tunnel.Tunnel) (now : Z) (s : State) : State :=
  mkState (publicFlag s) (copyFlag s) (quietFlag s) (providerFlag s) (cfg s)
          (Some t) now.
Definition set_clock (now : Z) (s : State) : State :=
  mkState (publicFlag s) (copyFlag s) (quietFlag s) (providerFlag s) (cfg s)
          (activeTunnel s) now.

(** ** The renderer of package [qr], as far as the orchestrator uses it *)

Record Renderer : Type := { quiet : bool }.

Definition NewRenderer (quiet : bool) : Renderer := {| quiet := quiet |}.

Definition print (r : Renderer) (kind : PrintKind) (message : string) : M unit :=
  if quiet r then ret tt else emit [EvPrint kind message].

Definition PrintError (r : Renderer) := print r PError.
Definition PrintInfo (r : Renderer) := print r PInfo.
Definition PrintSuccess (r : Renderer) := print r PSuccess.

Definition RenderOutput (w : World) (r : Renderer) (url : string) (isPublic : bool)
  : M (option GoError) :=
  match qr_err w with
  | Some err => ret (Some err)
  | None => emit [EvRender url isPublic] ;;; ret None
  end.

(** What [cmd.Flags().Changed] answers. *)
Record Command : Type := { Changed : string -> bool }.

Definition Offline : GoError := errors_New "no internet connection".

Definition InvalidPort (arg : string) : GoError :=
  errors_New ("invalid port number: " +:+ arg +:+ " (must be 1-65535)").

Section WithRuntime.
Context `{Runtime}.

Definition createPublicTunnel (w : World) (port : Z) (renderer : Renderer)
  : M (result string) :=
  let '(online, probe) := tunnel.IsOnline w in
  emit probe ;;;
  if negb online then
    PrintError renderer "You appear to be offline." ;;;
    PrintInfo renderer "Public tunnels require an internet connection." ;;;
    PrintInfo renderer
      "Try using qrlocal without --public to share on your local network." ;;;
    ret (Err Offline)
  else
    s <- get ;;
    let providerName :=
      if String.eqb (providerFlag s) EmptyString
      then config.DefaultProvider (cfg s)
      else providerFlag s in
    match tunnel.GetProvider providerName (Some (cfg s)) with
    | Err err =>
        PrintError renderer ("Unknown provider: " +:+ providerName) ;;;
        PrintInfo renderer
          "Use 'qrlocal providers' to see available providers." ;;;
        ret (Err err)
    | Ok provider =>
        PrintInfo renderer
          ("Creating public tunnel via " +:+ providerName +:+ "...") ;;;
        let tunnelCfg :=
          {| tunnel.LocalPort := port;
             tunnel.Provider_ := provider;
             tunnel.Timeout := 0 |} in
        let r := tunnel.NewTunnel w tunnelCfg in
        emit (events r) ;;;
        match value r with
        | Err err =>
            PrintError renderer ("Failed to create tunnel: " +:+ Error err) ;;;
            PrintInfo renderer
              "This might be a temporary issue. Please try again in a moment." ;;;
            ret (Err err)
        | Ok t =>
            s <- get ;;
            put (set_tunnel t (returned_at r) s) ;;;
            PrintSuccess renderer "Tunnel established!" ;;;
            ret (Ok (tunnel.PublicURL t))
        end
    end.

Definition cleanupTunnel (w : World) (renderer : Renderer) : M unit :=
  s <- get ;;
  match activeTunnel s with
  | Some t =>
      let r := tunnel.Close w t (clock s) in
      emit (events r) ;;;
      put (set_tunnel (snd (value r)) (returned_at r) s) ;;;
      match fst (value r) with
      | Some err =>
          PrintError renderer ("Error during cleanup: " +:+ Error err)
      | None => PrintSuccess renderer "Tunnel closed. Goodbye!"
      end
  | None => ret tt
  end.

(** The context of [waitForShutdown] is cancelled only on return, so
    the [select] waits for the signal. *)
Definition waitForShutdown (w : World) (renderer : Renderer) : M unit :=
  match signal_at w with
  | None => block
  | Some sig =>
      s <- get ;;
      put (set_clock (Z.max (clock s) sig) s) ;;;
      PrintInfo renderer (String "010" "Shutting down gracefully...") ;;;
      cleanupTunnel w renderer
  end.

(** [args] has exactly one element ([cobra.ExactArgs(1)]): [arg]. *)
Definition runQRLocal (w : World) (cmd : Command) (arg : string)
  : M (option GoError) :=
  match Atoi arg with
  | None => ret (Some (InvalidPort arg))
  | Some port =>
  if (port <? 1) || (port >? 65535) then ret (Some (InvalidPort arg))
  else
    s <- get ;;
    (if negb (Changed cmd "quiet") && config.QuietMode (cfg s)
     then put (set_quiet s) else ret tt) ;;;
    s <- get ;;
    (if negb (Changed cmd "copy") && config.CopyToClipboard (cfg s)
     then put (set_copy s) else ret tt) ;;;
    s <- get ;;
    let renderer := NewRenderer (quietFlag s) in
    let '(active, probe) := network.IsPortActive w port in
    emit probe ;;;
    if negb active then
      PrintError renderer
        ("No service is listening on port " +:+ itoa port) ;;;
      PrintInfo renderer
        "Make sure your server is running before sharing it." ;;;
      ret (Some (errors_New ("port " +:+ itoa port +:+ " is not active")))
    else
      made <-
        (if publicFlag s then
           r <- createPublicTunnel w port renderer ;;
           match r with
           | Err err => ret (Err err)
           | Ok url => ret (Ok (url, true))
           end
         else
           match network.GenerateLocalURL w port with
           | Err err =>
               PrintError renderer "Failed to determine local IP address" ;;;
               ret (Err err)
           | Ok url => ret (Ok (url, false))
           end) ;;
      match made with
      | Err err => ret (Some err)
      | Ok (url, isPublic) =>
          (if copyFlag s then
             emit [EvClipboard url] ;;;
             match clipboard_err w with
             | Some err =>
                 PrintError renderer
                   ("Failed to copy URL to clipboard: " +:+ Error err)
             | None => PrintSuccess renderer "URL copied to clipboard!"
             end
           else ret tt) ;;;
          rendered <- RenderOutput w renderer url isPublic ;;
          match rendered with
          | Some err =>
              PrintError renderer "Failed to generate QR code" ;;;
              ret (Some err)
          | None =>
              s <- get ;;
              match activeTunnel s with
              | Some _ =>
                  PrintInfo renderer
                    "Press Ctrl+C to stop the tunnel and exit..." ;;;
                  waitForShutdown w renderer ;;;
                  ret None
              | None => ret None
              end
          end
      end
  end.

End WithRuntime.

End main.

(* ===================================================================== *)
(** * Part VIII. Worlds to run the program in                            *)
(* ===================================================================== *)

Module scenario.
Import golib effects.

(** A Unix host on which the listener, the network and the terminal
    work; [online], [start], [out] and [latency] vary. *)
Definition world (online : bool) (start : option GoError) (out : list Read)
    (latency : option Z) : World := {|
  goos_windows := false;
  dial := fun addr => if String.eqb addr "1.1.1.1:443" then online else true;
  local_ip := Ok "192.168.1.5";
  qr_err := None;
  clipboard_err := None;
  signal_at := Some (60 * tunnel.Second);
  stdout_pipe_err := None;
  stderr_pipe_err := None;
  start_err := start;
  output := out;
  exits_at := None;
  kill_latency := latency;
  select_pick := fun _ => 0%nat
|}.

(** The relay greets, then names the URL, two seconds in. *)
Definition lhr_output : list Read :=
  [ {| read_at := 2 * tunnel.Second;
       line := "Connect to https://abcd12.lhr.life or..." +:+ String "010" EmptyString;
       read_err := None |} ].

(** The relay prints a banner and hangs up, one second in. *)
Definition eof_output : list Read :=
  [ {| read_at := 1 * tunnel.Second;
       line := "Permission denied (publickey)." +:+ String "010" EmptyString;
       read_err := None |};
    {| read_at := 1 * tunnel.Second;
       line := EmptyString;
       read_err := Some io_EOF |} ].

(** The subprocess is reaped one second after it is killed. *)
Definition lhr_world : World :=
  world true None lhr_output (Some (1 * tunnel.Second)).

(** The subprocess is reaped seven seconds after it is killed. *)
Definition slow_exit_world : World :=
  world true None lhr_output (Some (7 * tunnel.Second)).

Definition eof_world : World :=
  world true None eof_output (Some (1 * tunnel.Second)).


Definition offline_world : World :=
  world false None lhr_output (Some (1 * tunnel.Second)).

(** What [cmd.Start] returns when there is no [ssh] on the path:
    [exec: "ssh": executable file not found in $PATH]. *)
Definition ssh_not_found : GoError :=
  errors_New ("exec: " +:+ String "034" ("ssh" +:+ String "034"
                ": executable file not found in $PATH")).

Definition no_ssh_world : World :=
  world true (Some ssh_not_found) [] None.

Definition lhr_config (port : Z) : tunnel.Config :=
  {| tunnel.LocalPort := port;
     tunnel.Provider_ := tunnel.LocalhostRun;
     tunnel.Timeout := 0 |}.

(** The package-level variables of [main] after flag parsing and
    [PersistentPreRunE], with no configuration file. *)
Definition flags (public : bool) (provider : string) : main.State :=
  main.mkState public false false provider config.DefaultConfig None 0.

Definition no_flag_changed : main.Command :=
  {| main.Changed := fun _ => false |}.

(** The interfaces of a laptop: the loopback interface, a wired interface
    that is down, and a wireless interface with a link-local IPv6 address,
    the loopback address, an address of another kind and 192.168.1.10 in
    its 16-byte form. *)
Definition home_interfaces : list network.Interface :=
  [ {| network.Flags := 21;
       network.Addrs :=
         Ok [network.IPNet (Some [Byte.x7f; Byte.x00; Byte.x00; Byte.x01]) []] |};
    {| network.Flags := 18;
       network.Addrs :=
         Ok [network.IPNet (Some [Byte.x0a; Byte.x00; Byte.x00; Byte.x02]) []] |};
    {| network.Flags := 19;
       network.Addrs :=
         Ok [ network.IPNet
                (Some [Byte.xfe; Byte.x80; Byte.x00; Byte.x00;
                       Byte.x00; Byte.x00; Byte.x00; Byte.x00;
                       Byte.x00; Byte.x00; Byte.x00; Byte.x00;
                       Byte.x00; Byte.x00; Byte.x00; Byte.x01]) [];
              network.IPAddr (Some [Byte.x7f; Byte.x00; Byte.x00; Byte.x01])
                             EmptyString;
              network.OtherAddr;
              network.IPNet
                (Some (network.v4InV6Prefix ++
                       [Byte.xc0; Byte.xa8; Byte.x01; Byte.x0a])) [] ] |} ].

End scenario.

(* ===================================================================== *)
(** * Part IX. Properties                                                *)
(* ===================================================================== *)

Import golib effects.

(** ** Strings *)

Lemma append_nil (b : string) : EmptyString +:+ b = b.
Proof. reflexivity. Qed.

Lemma append_cons (c : ascii) (a b : string) :
  String c a +:+ b = String c (a +:+ b).
Proof. reflexivity. Qed.



Lemma append_assoc (a b c : string) : (a +:+ b) +:+ c = a +:+ (b +:+ c).
Proof.
  induction a as [|x a IH]; [reflexivity |].
  now rewrite !append_cons, IH.
Qed.

Lemma HasPrefix_append (p rest : string) : HasPrefix (p +:+ rest) p = true.
Proof.
  induction p as [|c p IH]; [reflexivity |].
  rewrite append_cons. simpl. now rewrite Ascii.eqb_refl.
Qed.

Lemma HasPrefix_inv (s p : string) :
  HasPrefix s p = true -> exists rest, s = p +:+ rest.
Proof.
  revert s. induction p as [|c p IH]; intros s Hp.
  - now exists s.
  - destruct s as [|d s]; [discriminate |]. simpl in Hp.
    destruct (Ascii.eqb_spec c d) as [->|]; [| discriminate].
    destruct (IH _ Hp) as [rest ->]. now exists rest.
Qed.

(** [Contains] decides the substring relation. *)
Lemma Contains_spec (s substr : string) :
  Contains s substr = true <-> exists a b, s = a +:+ substr +:+ b.
Proof.
  split.
  - induction s as [|c s IH]; simpl; intros Hc.
    + rewrite orb_false_r in Hc. apply HasPrefix_inv in Hc as [rest Hr].
      now exists EmptyString, rest.
    + apply orb_true_iff in Hc as [Hp | Hc].
      * apply HasPrefix_inv in Hp as [rest Hr]. now exists EmptyString, rest.
      * destruct (IH Hc) as (a & b & ->). now exists (String c a), b.
  - intros (a & b & ->). induction a as [|c a IH].
    + rewrite append_nil.
      assert (Hp : HasPrefix (substr +:+ b) substr = true)
        by apply HasPrefix_append.
      destruct (substr +:+ b); simpl; now rewrite Hp.
    + rewrite append_cons. simpl. now rewrite IH, orb_true_r.
Qed.

(** ** The [select] statement *)

Lemma earliest_le_first {A} (c : Z * A) cs : earliest c cs <= fst c.
Proof. induction cs as [|x cs IH]; simpl; lia. Qed.

Lemma earliest_le_in {A} (c : Z * A) cs x : In x cs -> earliest c cs <= fst x.
Proof.
  induction cs as [|y cs IH]; simpl; [tauto |].
  intros [-> | Hin]; [lia |]. specialize (IH Hin). lia.
Qed.

Lemma earliest_attained {A} (c : Z * A) cs :
  exists x, In x (c :: cs) /\ fst x = earliest c cs.
Proof.
  induction cs as [|y cs (x & Hin & Hx)]; simpl.
  - exists c. auto.
  - destruct (Z.min_spec (fst y) (earliest c cs)) as [[_ ->] | [_ ->]].
    + exists y. auto.
    + exists x. simpl in Hin. intuition.
Qed.

(** The case that runs is one of the cases, and none was ready before it. *)
Lemma select_spec {A} pick now (c : Z * A) cs :
  let r := select pick now c cs in
  In r (map (clamp now) (c :: cs)) /\
  forall x, In x (map (clamp now) (c :: cs)) -> fst r <= fst x.
Proof.
  unfold select. simpl map.
  set (c' := clamp now c). set (cs' := map (clamp now) cs).
  set (m := earliest c' cs').
  set (ready := List.filter (fun x => fst x =? m) (c' :: cs')).
  assert (Hne : ready <> []).
  { destruct (earliest_attained c' cs') as (x & Hin & Hx).
    intros E. assert (Hx' : In x ready).
    { apply filter_In. split; [exact Hin |]. apply Z.eqb_eq. exact Hx. }
    rewrite E in Hx'. destruct Hx'. }
  assert (Hr : In (nth (pick mod length ready)%nat ready c') ready).
  { apply nth_In. apply Nat.mod_upper_bound.
    destruct ready; [congruence | simpl; lia]. }
  apply filter_In in Hr as [Hin Hm]. apply Z.eqb_eq in Hm.
  split; [exact Hin |].
  intros x [<- | Hx]; rewrite Hm.
  - apply earliest_le_first.
  - now apply earliest_le_in.
Qed.

(** A case that is ready strictly before every other one is the one that
    runs, whatever the runtime would pick. *)
Lemma select_sole {A} pick now (c : Z * A) cs (x : Z * A) :
  In x (map (clamp now) (c :: cs)) ->
  (forall y, In y (map (clamp now) (c :: cs)) -> y = x \/ fst x < fst y) ->
  select pick now c cs = x.
Proof.
  intros Hx Hsole.
  destruct (select_spec pick now c cs) as [Hin Hmin].
  destruct (Hsole _ Hin) as [-> | Hlt]; [reflexivity |].
  specialize (Hmin _ Hx). lia.
Qed.

(** A [select] with a timer returns no later than the timer. *)
Lemma select_bounded {A} pick now (c : Z * A) cs :
  now <= fst (select pick now c cs) <= Z.max now (fst c).
Proof.
  destruct (select_spec pick now c cs) as [Hin Hmin]. split.
  - apply in_map_iff in Hin as (y & <- & _). unfold clamp. simpl. lia.
  - apply (Hmin (clamp now c)). simpl. auto.
Qed.

(** ** The pattern matcher *)




Lemma FindString_empty (re : Regexp) : FindString re EmptyString = EmptyString.
Proof. simpl. destruct (ends re EmptyString); reflexivity. Qed.










(** ** The reader of the subprocess output *)

Lemma scan_first_match (re : Regexp) (r : Read) (rest : list Read) :
  FindString re (line r) <> EmptyString ->
  tunnel.scan re (r :: rest) = tunnel.SentURL (read_at r) (FindString re (line r)).
Proof.
  intros Hne. simpl.
  destruct (line r) as [|c l] eqn:El.
  - now rewrite FindString_empty in Hne.
  - destruct (String.eqb_spec (FindString re (String c l)) EmptyString) as [E |];
      [contradiction | reflexivity].
Qed.

Lemma scan_skips (re : Regexp) (r : Read) (rest : list Read) :
  FindString re (line r) = EmptyString ->
  read_err r = None ->
  tunnel.scan re (r :: rest) = tunnel.scan re rest.
Proof.
  intros Hf He. simpl. rewrite Hf, He. simpl. now rewrite andb_false_r.
Qed.

Lemma scan_eof (re : Regexp) (pre : list Read) (last : Read) (post : list Read) :
  Forall (fun r => FindString re (line r) = EmptyString /\ read_err r = None) pre ->
  FindString re (line last) = EmptyString ->
  read_err last = Some io_EOF ->
  tunnel.scan re (pre ++ last :: post) = tunnel.SentErr (read_at last) tunnel.NoURLProduced.
Proof.
  intros Hpre Hf He. induction Hpre as [|r pre [Hr1 Hr2] _ IH].
  - simpl. rewrite Hf, He. simpl. now rewrite andb_false_r.
  - rewrite <- app_comm_cons, scan_skips; assumption.
Qed.

Lemma scan_url_nonempty (re : Regexp) (reads : list Read) (a : Z) (url : string) :
  tunnel.scan re reads = tunnel.SentURL a url -> url <> EmptyString.
Proof.
  induction reads as [|r reads IH]; simpl; [discriminate |].
  destruct ((0 <? String.length (line r))%nat &&
            negb (String.eqb (FindString re (line r)) EmptyString)) eqn:E.
  - intros [= <- <-]. apply andb_true_iff in E as [_ E].
    apply negb_true_iff in E. now apply String.eqb_neq in E.
  - destruct (read_err r) as [[|e]|]; [discriminate | discriminate | exact IH].
Qed.

(** ** The session *)

Lemma Close_keeps_url (w : World) (t : tunnel.Tunnel) (now : Z) :
  tunnel.PublicURL (snd (value (tunnel.Close w t now))) = tunnel.PublicURL t.
Proof.
  unfold tunnel.Close. simpl.
  destruct (match tunnel.cmd t with Some c => tunnel.Process c | None => false end);
    reflexivity.
Qed.

Lemma Close_no_assign (w : World) (t : tunnel.Tunnel) (now : Z) :
  List.filter is_assign (events (tunnel.Close w t now)) = [].
Proof.
  unfold tunnel.Close. simpl.
  destruct (match tunnel.cmd t with Some c => tunnel.Process c | None => false end);
    reflexivity.
Qed.

(** No call available to the owner of a session writes the URL. *)
Lemma run_keeps_url (w : World) (ops : list tunnel.Op) :
  forall t,
    tunnel.PublicURL (fst (tunnel.run w t ops)) = tunnel.PublicURL t /\
    List.filter is_assign (snd (tunnel.run w t ops)) = [].
Proof.
  induction ops as [|op ops IH]; intros t; simpl; [auto |].
  destruct (tunnel.apply w t op) as [t1 ev1] eqn:E1.
  destruct (tunnel.run w t1 ops) as [t2 ev2] eqn:E2.
  specialize (IH t1). rewrite E2 in IH. simpl in *. destruct IH as [IHu IHe].
  assert (H1 : tunnel.PublicURL t1 = tunnel.PublicURL t /\
               List.filter is_assign ev1 = []).
  { destruct op; unfold tunnel.apply in E1; injection E1 as <- <-; auto.
    split; [exact (Close_keeps_url w t now) | exact (Close_no_assign w t now)]. }
  destruct H1 as [H1u H1e]. split; [congruence |].
  now rewrite List.filter_app, H1e, IHe.
Qed.

Section Connect.
Context `{Runtime}.


(** When the reader sends an error strictly before the timer fires, and
    the context is not cancelled, [connect] fails with that error at that
    instant. *)
Lemma connect_err_first (w : World) (t : tunnel.Tunnel) (timeout a : Z) (err : GoError) :
  started w ->
  tunnel.ctx t = None ->
  tunnel.scan (tunnel.URLRegex (tunnel.provider t)) (output w) = tunnel.SentErr a err ->
  Z.max 0 a < timeout ->
  let r := tunnel.connect w t timeout in
  fst (value r) = Some err /\
  returned_at r = Z.max 0 a /\
  exists path args, events r = [EvStart path args; EvKill].
Proof.
  intros (H1 & H2 & H3) Hctx Hscan Hlt. unfold tunnel.connect.
  rewrite H1, H2, H3. simpl. rewrite Hscan, Hctx. simpl.
  rewrite (select_sole _ 0 _ _ (Z.max 0 a, tunnel.CaseErr err)).
  - simpl. eauto 6.
  - simpl. auto.
  - simpl. intros y [<- | [<- | []]]; simpl; [right; lia | now left].
Qed.


(** Every return of [connect]: either success, after exactly one assignment
    of a non-empty URL that the reader sent, or a failure that leaves the
    URL of the session as it was. *)
Lemma connect_cases (w : World) (t : tunnel.Tunnel) (timeout : Z) :
  let r := tunnel.connect w t timeout in
  (fst (value r) = None /\
   exists a url path args,
     tunnel.scan (tunnel.URLRegex (tunnel.provider t)) (output w) = tunnel.SentURL a url /\
     events r = [EvStart path args; EvAssignURL url] /\
     tunnel.publicURL (snd (value r)) = url /\
     tunnel.monitored (snd (value r)) = true)
  \/
  (exists err,
     fst (value r) = Some err /\
     List.filter is_assign (events r) = [] /\
     tunnel.publicURL (snd (value r)) = tunnel.publicURL t).
Proof.
  unfold tunnel.connect.
  destruct (stdout_pipe_err w); [right; simpl; eauto |].
  destruct (stderr_pipe_err w); [right; simpl; eauto |].
  destruct (start_err w); [right; simpl; eauto |].
  simpl.
  match goal with |- context [select ?p ?n ?c ?cs] =>
    destruct (select_spec p n c cs) as [Hin _];
    destruct (select p n c cs) as [now [url | err | |]] eqn:Esel
  end; simpl; try (right; eauto; fail).
  left. split; [reflexivity |].
  destruct Hin as [Hin | Hin]; [discriminate |].
  apply in_map_iff in Hin as ([a c] & Hc & Hin). unfold clamp in Hc. simpl in Hc.
  injection Hc as _ ->.
  apply in_app_or in Hin as [Hin | Hin].
  - destruct (tunnel.scan _ _) as [a' url' | a' err' |] eqn:Es; simpl in Hin.
    + destruct Hin as [[= -> ->] | []]. eauto 10.
    + destruct Hin as [[=] | []].
    + destruct Hin.
  - destruct (tunnel.ctx t); simpl in Hin; [destruct Hin as [[=] | []] | destruct Hin].
Qed.

(** When the reader sends an error, [connect] fails, with that error or
    with the timeout, and no later than the error was sent. *)
Lemma connect_err_sent (w : World) (t : tunnel.Tunnel) (timeout a : Z) (err : GoError) :
  started w ->
  tunnel.ctx t = None ->
  tunnel.scan (tunnel.URLRegex (tunnel.provider t)) (output w) = tunnel.SentErr a err ->
  let r := tunnel.connect w t timeout in
  (fst (value r) = Some err \/ fst (value r) = Some tunnel.ConnectTimeout) /\
  returned_at r <= Z.max 0 a.
Proof.
  intros (H1 & H2 & H3) Hctx Hscan. unfold tunnel.connect.
  rewrite H1, H2, H3. simpl. rewrite Hscan, Hctx. simpl.
  match goal with |- context [select ?p ?n ?c ?cs] =>
    destruct (select_spec p n c cs) as [Hin Hmin];
    destruct (select p n c cs) as [now c'] eqn:Esel
  end.
  simpl in Hin, Hmin.
  assert (Hle : now <= Z.max 0 a).
  { apply (Hmin (Z.max 0 a, tunnel.CaseErr err)). auto. }
  destruct Hin as [[= <- <-] | [[= <- <-] | []]]; simpl; auto.
Qed.

End Connect.



(** C4. When the output ends with end-of-file and no line of it matched the
    provider's pattern, [NewTunnel] fails, with [NoURLProduced] or with the
    timeout, and returns no later than the end of the output; when the end
    comes before the deadline it fails with [NoURLProduced], exactly at
    the instant the end is read. *)
Theorem eof_without_url_fails `{Runtime}
    (w : World) (cfg : tunnel.Config) (pre : list Read) (last : Read) (post : list Read) :
  started w ->
  output w = pre ++ last :: post ->
  Forall (fun r => FindString (tunnel.URLRegex (tunnel.Provider_ cfg)) (line r) = EmptyString
                   /\ read_err r = None) pre ->
  FindString (tunnel.URLRegex (tunnel.Provider_ cfg)) (line last) = EmptyString ->
  read_err last = Some io_EOF ->
  let r := tunnel.NewTunnel w cfg in
  let eof := Z.max 0 (read_at last) in
  (value r = Err tunnel.NoURLProduced \/ value r = Err tunnel.ConnectTimeout) /\
  returned_at r <= eof /\
  (eof < tunnel.timeout_of cfg ->
   value r = Err tunnel.NoURLProduced /\ returned_at r = eof).
Proof.
  intros Hst Hout Hpre Hlast Heof.
  assert (Hscan : tunnel.scan (tunnel.URLRegex (tunnel.provider (tunnel.fresh cfg)))
                    (output w) = tunnel.SentErr (read_at last) tunnel.NoURLProduced).
  { rewrite Hout. now apply scan_eof. }
  cbv zeta. unfold tunnel.NewTunnel.
  pose proof (connect_err_sent w (tunnel.fresh cfg) (tunnel.timeout_of cfg) _ _
                Hst eq_refl Hscan) as Hany.
  pose proof (connect_err_first w (tunnel.fresh cfg) (tunnel.timeout_of cfg) _ _
                Hst eq_refl Hscan) as Hfirst.
  cbv zeta in Hany, Hfirst.
  destruct (tunnel.connect w (tunnel.fresh cfg) (tunnel.timeout_of cfg))
    as [[e t] ev at_].
  simpl in Hany, Hfirst |- *.
  destruct Hany as [[-> | ->] Hle]; simpl.
  - split; [now left |]. split; [exact Hle |].
    intros Hlt. destruct (Hfirst Hlt) as (_ & -> & _). auto.
  - split; [now right |]. split; [exact Hle |].
    intros Hlt. destruct (Hfirst Hlt) as (Hc & _). discriminate Hc.
Qed.

(** The relay prints a banner and closes the connection after one second. *)
Lemma eof_without_url_fails_witness :
  started scenario.eof_world /\
  value (@tunnel.NewTunnel subset_runtime scenario.eof_world (scenario.lhr_config 3000))
    = Err tunnel.NoURLProduced /\
  returned_at (@tunnel.NewTunnel subset_runtime scenario.eof_world (scenario.lhr_config 3000))
    = 1 * tunnel.Second.
Proof.
  split; [repeat split |].
  destruct (@eof_without_url_fails subset_runtime
              scenario.eof_world (scenario.lhr_config 3000)
              [ {| read_at := 1 * tunnel.Second;
                   line := "Permission denied (publickey)." +:+ String "010" EmptyString;
                   read_err := None |} ]
              {| read_at := 1 * tunnel.Second; line := EmptyString;
                 read_err := Some io_EOF |}
              []
              (conj eq_refl (conj eq_refl eq_refl)) eq_refl)
    as (_ & _ & Hexact).
  - repeat constructor.
  - reflexivity.
  - reflexivity.
  - apply Hexact. vm_compute. reflexivity.
Defined.

(** C6. The public URL of a session is written at most once; the write is
    the last thing [NewTunnel] does before it returns the session, so it
    happens before the session is reported established; before that, on
    the fresh session and after any failed [connect], [PublicURL] is empty;
    and on an established session [PublicURL] is not empty and stays what
    it was after any sequence of calls, none of which writes it. *)
Theorem public_url_single_assignment `{Runtime} (w : World) (cfg : tunnel.Config) :
  let r := tunnel.NewTunnel w cfg in
  tunnel.PublicURL (tunnel.fresh cfg) = EmptyString /\
  (length (List.filter is_assign (events r)) <= 1)%nat /\
  (forall err t',
      value (tunnel.connect w (tunnel.fresh cfg) (tunnel.timeout_of cfg)) = (Some err, t') ->
      tunnel.PublicURL t' = EmptyString) /\
  match value r with
  | Ok t =>
      (exists before,
          events r = before ++ [EvAssignURL (tunnel.PublicURL t)] /\
          List.filter is_assign before = []) /\
      tunnel.PublicURL t <> EmptyString /\
      forall ops,
        tunnel.PublicURL (fst (tunnel.run w t ops)) = tunnel.PublicURL t /\
        List.filter is_assign (snd (tunnel.run w t ops)) = []
  | Err _ => List.filter is_assign (events r) = []
  end.
Proof.
  cbv zeta. unfold tunnel.NewTunnel.
  pose proof (connect_cases w (tunnel.fresh cfg) (tunnel.timeout_of cfg)) as Hc.
  cbv zeta in Hc.
  destruct (tunnel.connect w (tunnel.fresh cfg) (tunnel.timeout_of cfg))
    as [[e t] ev at_] eqn:Ec.
  simpl in Hc |- *.
  destruct Hc as [(-> & a & url & path & args & Hscan & -> & Hurl & _)
                 | (err & -> & Hev & Hurl)].
  - simpl. repeat split.
    + lia.
    + intros err t' [=].
    + exists [EvStart path args]. unfold tunnel.PublicURL. rewrite Hurl. auto.
    + unfold tunnel.PublicURL. rewrite Hurl. eapply scan_url_nonempty, Hscan.
    + apply run_keeps_url.
    + apply run_keeps_url.
  - simpl. rewrite List.filter_app, Hev. simpl. repeat split.
    + lia.
    + intros err' t' [= _ <-]. exact Hurl.
Qed.

(** ** The default timeout *)



(** ** Closing a session *)

Lemma cancel_again (t : tunnel.Tunnel) (now now' : Z) :
  tunnel.cancel (tunnel.cancel t now) now' = tunnel.cancel t now.
Proof. unfold tunnel.cancel. simpl. destruct (tunnel.ctx t); reflexivity. Qed.

Lemma kill_again (t : tunnel.Tunnel) (now now' : Z) :
  tunnel.kill (tunnel.kill t now) now' = tunnel.kill t now.
Proof. unfold tunnel.kill. simpl. destruct (tunnel.killed t); reflexivity. Qed.

(** The session that [Close] leaves is the same whenever a second [Close]
    is called on it. *)
Lemma Close_state_again (w : World) (t : tunnel.Tunnel) (now now' : Z) :
  snd (value (tunnel.Close w (snd (value (tunnel.Close w t now))) now'))
  = snd (value (tunnel.Close w t now)).
Proof.
  destruct t as [c url port cx p k m].
  destruct c as [[path args [|]]|], cx, k; reflexivity.
Qed.

(** What [Close] returns is what its [select] yields, over the session as
    [Close] leaves it. *)
Lemma Close_select (w : World) (t : tunnel.Tunnel) (now : Z) :
  let t1 := snd (value (tunnel.Close w t now)) in
  let sel :=
    select (select_pick w now) now (now + 5 * tunnel.Second, Some tunnel.CloseTimeout)
           (tunnel.done_cases (tunnel.done_closed_at w t1)) in
  fst (value (tunnel.Close w t now)) = snd sel /\
  returned_at (tunnel.Close w t now) = fst sel.
Proof. split; reflexivity. Qed.

(** C5, as the code has it.  Every [Close] returns within five seconds of
    the call, with no error or with [CloseTimeout].  A [Close] that
    returned no error is idempotent: any later [Close] returns no error, at
    once, and leaves the session as it was.  (After a [Close] that timed
    out, a second [Close] waits again.) *)
Theorem close_is_bounded_and_idempotent_once_reaped
    (w : World) (t : tunnel.Tunnel) (now : Z) :
  let r := tunnel.Close w t now in
  (fst (value r) = None \/ fst (value r) = Some tunnel.CloseTimeout) /\
  now <= returned_at r <= now + 5 * tunnel.Second /\
  (fst (value r) = None ->
   forall now', returned_at r <= now' ->
     let r' := tunnel.Close w (snd (value r)) now' in
     fst (value r') = None /\
     returned_at r' = now' /\
     snd (value r') = snd (value r)).
Proof.
  cbv zeta. split; [| split].
  - unfold tunnel.Close. simpl.
    match goal with |- context [select ?p ?n ?c ?cs] =>
      destruct (select_spec p n c cs) as [Hin _];
      destruct (select p n c cs) as [at_ e]
    end.
    simpl in *. destruct Hin as [[= _ <-] | Hin]; [now right |].
    apply in_map_iff in Hin as ([d e'] & [= _ <-] & Hin).
    destruct (tunnel.done_closed_at _ _); simpl in Hin;
      [destruct Hin as [[= _ <-] | []]; now left | destruct Hin].
  - unfold tunnel.Close. simpl.
    match goal with |- context [select ?p ?n ?c ?cs] =>
      pose proof (select_bounded p n c cs) as Hb
    end.
    simpl in Hb. unfold tunnel.Second in *. lia.
  - intros Hnil now' Hlater.
    destruct (Close_select w t now) as [Hv Hat].
    destruct (Close_select w (snd (value (tunnel.Close w t now))) now') as [Hv' Hat'].
    rewrite Close_state_again in Hv', Hat'.
    set (t1 := snd (value (tunnel.Close w t now))) in *.
    rewrite Hv in Hnil. rewrite Hat in Hlater. clear Hv Hat.
    match type of Hnil with context [select ?p ?n ?c ?cs] =>
      destruct (select_spec p n c cs) as [Hin _]
    end.
    destruct (tunnel.done_closed_at w t1) as [d|];
      cbn [tunnel.done_cases] in *; simpl in Hin.
    + assert (Hd : Z.max now d <= now').
      { destruct Hin as [Hin | [Hin | []]]; rewrite <- Hin in Hlater, Hnil;
          simpl in *; [discriminate | exact Hlater]. }
      assert (Hsel : select (select_pick w now') now'
                       (now' + 5 * tunnel.Second, Some tunnel.CloseTimeout)
                       [(d, None)] = (now', None)).
      { apply select_sole; simpl.
        - right. left. unfold clamp. simpl. f_equal. lia.
        - intros y [<- | [<- | []]]; unfold clamp, tunnel.Second; simpl.
          + right. lia.
          + left. f_equal. lia. }
      rewrite Hsel in Hv', Hat'.
      split; [exact Hv' | split; [exact Hat' | apply Close_state_again]].
    + destruct Hin as [Hin | []]. rewrite <- Hin in Hnil. discriminate.
Qed.

(** A session whose subprocess is reaped one second after it is killed:
    closed at 10 s, and again at 20 s. *)
Lemma close_is_bounded_and_idempotent_once_reaped_witness :
  exists t,
    value (@tunnel.NewTunnel subset_runtime scenario.lhr_world (scenario.lhr_config 3000))
      = Ok t /\
    let r := tunnel.Close scenario.lhr_world t (10 * tunnel.Second) in
    fst (value r) = None /\
    returned_at r <= 20 * tunnel.Second /\
    let r' := tunnel.Close scenario.lhr_world (snd (value r)) (20 * tunnel.Second) in
    fst (value r') = None /\
    returned_at r' = 20 * tunnel.Second /\
    snd (value r') = snd (value r).
Proof.
  eexists. split; [vm_compute; reflexivity |]. cbv zeta.
  match goal with |- context [tunnel.Close ?w ?t ?now] =>
    destruct (close_is_bounded_and_idempotent_once_reaped w t now) as (_ & _ & Hidem)
  end.
  assert (Hnil : fst (value (tunnel.Close scenario.lhr_world
                   (tunnel.with_url
                      (tunnel.with_cmd (tunnel.fresh (scenario.lhr_config 3000))
                         {| tunnel.Path := "ssh";
                            tunnel.Args := tunnel.sshArgs tunnel.LocalhostRun 3000
                                             (30 * tunnel.Second);
                            tunnel.Process := true |})
                      "https://abcd12.lhr.life")
                   (10 * tunnel.Second))) = None)
    by (vm_compute; reflexivity).
  split; [vm_compute; reflexivity |]. split; [vm_compute; discriminate |].
  apply (Hidem Hnil). vm_compute. discriminate.
Defined.

(** C5, a session on which the claim fails.  The subprocess is reaped seven
    seconds after it is killed.  The first [Close], called at 10 s, gives
    up at 15 s with [CloseTimeout]; a second [Close], called when the
    first has returned, waits two more seconds and returns no error. *)
Lemma close_after_timeout_waits_again :
  exists t,
    value (@tunnel.NewTunnel subset_runtime scenario.slow_exit_world
             (scenario.lhr_config 3000)) = Ok t /\
    let r1 := tunnel.Close scenario.slow_exit_world t (10 * tunnel.Second) in
    let r2 := tunnel.Close scenario.slow_exit_world (snd (value r1)) (returned_at r1) in
    fst (value r1) = Some tunnel.CloseTimeout /\
    returned_at r1 = 15 * tunnel.Second /\
    fst (value r2) = None /\
    returned_at r2 = 17 * tunnel.Second /\
    fst (value r2) <> fst (value r1) /\
    returned_at r1 < returned_at r2.
Proof.
  eexists. split; [vm_compute; reflexivity |].
  vm_compute. repeat split; discriminate.
Qed.

(** ** The argument vector *)


Lemma sshArgs_forward (p : tunnel.Provider) (localPort timeout : Z) :
  exists front,
    tunnel.sshArgs p localPort timeout =
    front ++ ["-R"; tunnel.remoteForward p localPort;
              tunnel.User p +:+ "@" +:+ tunnel.Host p].
Proof. unfold tunnel.sshArgs. eauto. Qed.

(** C1, as the code has it.  The remote-forward specification is chosen by
    comparing an attribute of the provider with a literal of [connect]:
    the name with [pinggy] in the current version, the relay host with
    [a.pinggy.io] in the earlier one.  On equality the specification is
    [0:localhost:<localPort>], otherwise [80:localhost:<localPort>]; it is
    the argument that follows [-R] on the command line. *)
Theorem remote_forward_is_chosen_by_name
    (p : tunnel.Provider) (p0 : tunnel_v0.Provider) (localPort timeout : Z) :
  (tunnel.Name p = "pinggy" ->
   tunnel.remoteForward p localPort = "0:localhost:" +:+ itoa localPort) /\
  (tunnel.Name p <> "pinggy" ->
   tunnel.remoteForward p localPort = "80:localhost:" +:+ itoa localPort) /\
  (tunnel_v0.Host p0 = "a.pinggy.io" ->
   tunnel_v0.remoteForward p0 localPort = "0:localhost:" +:+ itoa localPort) /\
  (tunnel_v0.Host p0 <> "a.pinggy.io" ->
   tunnel_v0.remoteForward p0 localPort = "80:localhost:" +:+ itoa localPort) /\
  (exists front,
      tunnel.sshArgs p localPort timeout =
      front ++ ["-R"; tunnel.remoteForward p localPort;
                tunnel.User p +:+ "@" +:+ tunnel.Host p]).
Proof.
  unfold tunnel.remoteForward, tunnel_v0.remoteForward.
  repeat split.
  - intros ->. reflexivity.
  - intros Hne. apply String.eqb_neq in Hne. now rewrite Hne.
  - intros ->. reflexivity.
  - intros Hne. apply String.eqb_neq in Hne. now rewrite Hne.
  - apply sshArgs_forward.
Qed.

(** The built-in providers of both versions, for the local port 3000. *)
Lemma remote_forward_is_chosen_by_name_witness :
  tunnel.remoteForward tunnel.Pinggy 3000 = "0:localhost:3000" /\
  tunnel.remoteForward tunnel.LocalhostRun 3000 = "80:localhost:3000" /\
  tunnel_v0.remoteForward tunnel_v0.Pinggy 3000 = "0:localhost:3000" /\
  tunnel_v0.remoteForward tunnel_v0.LocalhostRun 3000 = "80:localhost:3000".
Proof.
  destruct (remote_forward_is_chosen_by_name tunnel.Pinggy tunnel_v0.Pinggy 3000 0)
    as (Hp & _ & Hp0 & _).
  destruct (remote_forward_is_chosen_by_name tunnel.LocalhostRun tunnel_v0.LocalhostRun 3000 0)
    as (_ & Hl & _ & Hl0 & _).
  split; [exact (Hp eq_refl) |].
  split; [apply Hl; discriminate |].
  split; [exact (Hp0 eq_refl) |].
  apply Hl0; discriminate.
Defined.

(** C1, providers on which the claim fails.  A provider has one port, the
    port of the relay.  A provider configured with port 0 under another
    name gets the fixed port 80; the built-in [Pinggy], whose port is 443,
    gets port 0; and two providers that agree on the host, the port, the
    user and the pattern, which is all a configuration can say, get
    different specifications when only one of them is called [pinggy]. *)
Lemma remote_forward_ignores_the_configured_port :
  let cfg0 :=
    {| config.Host := "relay.example"; config.Port := 0; config.User := "u";
       config.URLRegex := "https://[a-z]+\.relay\.example" |} in
  (exists p,
      @tunnel.ProviderFromConfig subset_runtime "dynamic" cfg0 = Ok p /\
      tunnel.Port p = "0" /\
      tunnel.remoteForward p 3000 = "80:localhost:3000") /\
  (tunnel.Port tunnel.Pinggy = "443" /\
   tunnel.remoteForward tunnel.Pinggy 3000 = "0:localhost:3000") /\
  (exists p q,
      @tunnel.ProviderFromConfig subset_runtime "dynamic" cfg0 = Ok p /\
      @tunnel.ProviderFromConfig subset_runtime "pinggy" cfg0 = Ok q /\
      tunnel.Host p = tunnel.Host q /\ tunnel.Port p = tunnel.Port q /\
      tunnel.User p = tunnel.User q /\ tunnel.URLRegex p = tunnel.URLRegex q /\
      tunnel.remoteForward p 3000 <> tunnel.remoteForward q 3000).
Proof.
  cbv zeta. split; [| split].
  - eexists. split; [vm_compute; reflexivity |]. split; reflexivity.
  - split; reflexivity.
  - eexists. eexists. split; [vm_compute; reflexivity |].
    split; [vm_compute; reflexivity |].
    repeat split. vm_compute. discriminate.
Qed.

(** ** Classifying a start failure *)

(** C10. An error whose lower-cased message contains
    [executable file not found] is classified as a network error, so when
    [Start] fails with such an error, as it does when there is no [ssh] on
    the path, [connect] and [NewTunnel] report [TunnelUnreachable], the
    message about the internet connection, and not [LaunchFailed]. *)
Theorem missing_ssh_is_reported_as_unreachable `{Runtime} (e : GoError) :
  (exists before after,
      strings_ToLower (Error e) = before +:+ "executable file not found" +:+ after) ->
  tunnel.isNetworkError (Some e) = true /\
  forall (w : World),
    stdout_pipe_err w = None ->
    stderr_pipe_err w = None ->
    start_err w = Some e ->
    (forall t timeout,
        fst (value (tunnel.connect w t timeout)) = Some tunnel.TunnelUnreachable) /\
    (forall cfg, value (tunnel.NewTunnel w cfg) = Err tunnel.TunnelUnreachable) /\
    Error tunnel.TunnelUnreachable =
      "unable to connect to tunneling service: please check your internet connection" /\
    tunnel.TunnelUnreachable <> tunnel.LaunchFailed e.
Proof.
  intros Hc. apply Contains_spec in Hc.
  assert (Hnet : tunnel.isNetworkError (Some e) = true).
  { unfold tunnel.isNetworkError.
    destruct (asNetError e); [reflexivity |].
    destruct (asDNSError e); [reflexivity |].
    apply existsb_exists. exists "executable file not found".
    split; [| exact Hc]. unfold tunnel.networkPatterns. simpl. tauto. }
  split; [exact Hnet |].
  intros w H1 H2 H3.
  assert (Hconn : forall t timeout,
             fst (value (tunnel.connect w t timeout)) = Some tunnel.TunnelUnreachable).
  { intros t timeout. unfold tunnel.connect. rewrite H1, H2, H3, Hnet. reflexivity. }
  split; [exact Hconn |]. split; [| split; [reflexivity |]].
  - intros cfg. unfold tunnel.NewTunnel.
    specialize (Hconn (tunnel.fresh cfg) (tunnel.timeout_of cfg)).
    destruct (value (tunnel.connect w (tunnel.fresh cfg) (tunnel.timeout_of cfg)))
      as [err t]. simpl in Hconn. now subst err.
  - intros E. apply (f_equal Error) in E. vm_compute in E. discriminate.
Qed.

(** The error of [os/exec] for a missing [ssh], on a Unix host. *)
Lemma missing_ssh_is_reported_as_unreachable_witness :
  ascii_ToLower (Error scenario.ssh_not_found) =
    ("exec: " +:+ String "034" ("ssh" +:+ String "034" ": "))
    +:+ "executable file not found" +:+ " in $path" /\
  @tunnel.isNetworkError subset_runtime (Some scenario.ssh_not_found) = true /\
  value (@tunnel.NewTunnel subset_runtime scenario.no_ssh_world (scenario.lhr_config 3000))
    = Err tunnel.TunnelUnreachable.
Proof.
  split; [vm_compute; reflexivity |].
  destruct (@missing_ssh_is_reported_as_unreachable subset_runtime scenario.ssh_not_found)
    as [Hnet Hworld].
  - exists ("exec: " +:+ String "034" ("ssh" +:+ String "034" ": ")), " in $path".
    vm_compute. reflexivity.
  - split; [exact Hnet |].
    destruct (Hworld scenario.no_ssh_world eq_refl eq_refl eq_refl) as (_ & Hnew & _).
    apply Hnew.
Defined.

(** ** The provider registry *)

Lemma builtin_none `{Runtime} (name : string) :
  tunnel.builtin name = None <-> ~ In (strings_ToLower name) tunnel.builtin_names.
Proof.
  unfold tunnel.builtin, tunnel.builtin_names.
  generalize (strings_ToLower name) as n. intros n. split.
  - intros Hb Hin. simpl in Hin.
    repeat (destruct Hin as [<- | Hin]; [discriminate Hb |]). exact Hin.
  - intros Hn.
    repeat match goal with
           | |- context [String.eqb n ?s] =>
               destruct (String.eqb_spec n s) as [-> |];
               [exfalso; apply Hn; simpl; tauto |]
           end.
    reflexivity.
Qed.

Lemma builtin_some `{Runtime} (name : string) (p : tunnel.Provider) :
  tunnel.builtin name = Some p ->
  In p [tunnel.LocalhostRun; tunnel.Pinggy; tunnel.Serveo; tunnel.TunnelTo].
Proof.
  unfold tunnel.builtin.
  repeat match goal with
         | |- context [if ?b then _ else _] => destruct b
         end; intros [= <-]; simpl; tauto.
Qed.

(** The configuration lookup finds nothing exactly when neither of its
    tables has the name. *)
Lemma config_GetProvider_none (c : config.Config) (name : string) :
  config.GetProvider c name = None <->
  config.Providers c !! name = None /\ config.CustomProviders c !! name = None.
Proof.
  unfold config.GetProvider.
  destruct (config.Providers c !! name), (config.CustomProviders c !! name);
    split; intros Hn; try discriminate; try tauto; destruct Hn; discriminate.
Qed.

(** C8. [GetProvider] consults the configuration first: a name found there
    yields the provider built from that entry by [ProviderFromConfig]
    (with the entry's host, port, user and compiled pattern, under the
    name asked for).  A name the configuration does not have is looked up
    among the built-in providers.  The result is the unknown-provider error
    exactly when the name is in neither. *)
Theorem GetProvider_config_then_builtin `{Runtime}
    (name : string) (cfg : option config.Config) :
  let configured :=
    match cfg with
    | Some c => config.GetProvider c name
    | None => None
    end in
  (forall provCfg,
      configured = Some provCfg ->
      tunnel.GetProvider name cfg = tunnel.ProviderFromConfig name provCfg /\
      forall regex,
        regexp_Compile (config.URLRegex provCfg) = Ok regex ->
        tunnel.GetProvider name cfg =
        Ok {| tunnel.Name := name;
              tunnel.Host := config.Host provCfg;
              tunnel.Port := itoa (config.Port provCfg);
              tunnel.User := config.User provCfg;
              tunnel.URLRegex := regex |}) /\
  (configured = None ->
   forall p, tunnel.builtin name = Some p -> tunnel.GetProvider name cfg = Ok p) /\
  (tunnel.GetProvider name cfg = Err (tunnel.unknown_provider name) <->
   configured = None /\ tunnel.builtin name = None) /\
  (tunnel.builtin name = None <->
   ~ In (strings_ToLower name) tunnel.builtin_names) /\
  (forall p,
      tunnel.builtin name = Some p ->
      In p [tunnel.LocalhostRun; tunnel.Pinggy; tunnel.Serveo; tunnel.TunnelTo]) /\
  (forall c,
      cfg = Some c ->
      (configured = None <->
       config.Providers c !! name = None /\ config.CustomProviders c !! name = None)).
Proof.
  cbv zeta.
  assert (Htables : forall c, cfg = Some c ->
            (match cfg with Some c => config.GetProvider c name | None => None end = None <->
             config.Providers c !! name = None /\ config.CustomProviders c !! name = None)).
  { intros c ->. apply config_GetProvider_none. }
  cut ((forall provCfg,
           match cfg with Some c => config.GetProvider c name | None => None end
           = Some provCfg ->
           tunnel.GetProvider name cfg = tunnel.ProviderFromConfig name provCfg /\
           forall regex,
             regexp_Compile (config.URLRegex provCfg) = Ok regex ->
             tunnel.GetProvider name cfg =
             Ok {| tunnel.Name := name;
                   tunnel.Host := config.Host provCfg;
                   tunnel.Port := itoa (config.Port provCfg);
                   tunnel.User := config.User provCfg;
                   tunnel.URLRegex := regex |}) /\
       (match cfg with Some c => config.GetProvider c name | None => None end = None ->
        forall p, tunnel.builtin name = Some p -> tunnel.GetProvider name cfg = Ok p) /\
       (tunnel.GetProvider name cfg = Err (tunnel.unknown_provider name) <->
        match cfg with Some c => config.GetProvider c name | None => None end = None /\
        tunnel.builtin name = None) /\
       (tunnel.builtin name = None <->
        ~ In (strings_ToLower name) tunnel.builtin_names)).
  { intros (A & B & C & D). repeat (split; [assumption |]).
    split; [apply builtin_some | exact Htables]. }
  clear Htables. unfold tunnel.GetProvider.
  destruct (match cfg with Some c => config.GetProvider c name | None => None end)
    as [pc|].
  - split; [| split; [| split]].
    + intros provCfg [= <-]. split; [reflexivity |].
      intros regex Hre. unfold tunnel.ProviderFromConfig. now rewrite Hre.
    + discriminate.
    + split; [| intros [[=] _]].
      unfold tunnel.ProviderFromConfig.
      destruct (regexp_Compile (config.URLRegex pc)); [discriminate |].
      intros E.
      apply (f_equal (fun r => match r with
                               | Err e => Error e
                               | Ok _ => EmptyString
                               end)) in E.
      vm_compute in E. discriminate.
    + apply builtin_none.
  - split; [| split; [| split]].
    + discriminate.
    + intros _ p ->. reflexivity.
    + destruct (tunnel.builtin name); split; try tauto; try discriminate.
      intros [_ [=]].
    + apply builtin_none.
Qed.

(** With the default configuration: a name it has, an alias only the
    built-in table has, and a name that nothing has. *)
Lemma GetProvider_config_then_builtin_witness :
  (exists p,
      @tunnel.GetProvider subset_runtime "pinggy" (Some config.DefaultConfig) = Ok p /\
      tunnel.Name p = "pinggy" /\ tunnel.Host p = "a.pinggy.io" /\
      tunnel.Port p = "443" /\ tunnel.User p = "a") /\
  @tunnel.GetProvider subset_runtime "Pinggy.IO" (Some config.DefaultConfig)
    = Ok tunnel.Pinggy /\
  @tunnel.GetProvider subset_runtime "ngrok" (Some config.DefaultConfig)
    = Err (tunnel.unknown_provider "ngrok").
Proof.
  split; [| split].
  - destruct (@GetProvider_config_then_builtin subset_runtime "pinggy"
                (Some config.DefaultConfig)) as (Hcfg & _).
    destruct (Hcfg {| config.Host := "a.pinggy.io"; config.Port := 443;
                      config.User := "a";
                      config.URLRegex := "https://[a-zA-Z0-9-]+\.a\.free\.pinggy\.link" |})
      as [_ Hbuilt].
    + vm_compute. reflexivity.
    + eexists. split; [apply Hbuilt; vm_compute; reflexivity |]. repeat split.
  - destruct (@GetProvider_config_then_builtin subset_runtime "Pinggy.IO"
                (Some config.DefaultConfig)) as (_ & Hbuiltin & _).
    apply Hbuiltin; vm_compute; reflexivity.
  - destruct (@GetProvider_config_then_builtin subset_runtime "ngrok"
                (Some config.DefaultConfig)) as (_ & _ & Hunknown & _).
    apply Hunknown. split; vm_compute; reflexivity.
Defined.

(** ** The orchestrator *)

Ltac run_monad :=
  unfold main.bind, main.get, main.put, main.ret, main.emit, main.block,
    main.PrintError, main.PrintInfo, main.PrintSuccess, main.print.

Lemma createPublicTunnel_offline `{Runtime}
    (w : World) (port : Z) (renderer : main.Renderer) (s : main.State) :
  dial w "1.1.1.1:443" = false ->
  exists evs,
    main.createPublicTunnel w port renderer s = (Some (Err main.Offline), s, evs) /\
    List.filter is_start evs = [].
Proof.
  intros Hoff. unfold main.createPublicTunnel, tunnel.IsOnline. rewrite Hoff.
  run_monad. destruct (main.quiet renderer); simpl; eauto.
Qed.

(** C9. When the connectivity probe fails, [createPublicTunnel] returns the
    offline error, leaves the package state as it was and starts no
    subprocess.  So a public-mode run of [runQRLocal] returns an error
    without starting a subprocess and without an active tunnel being set,
    and the error is the offline one whenever the argument is a port in
    range on which a service listens. *)
Theorem offline_fails_before_any_spawn `{Runtime}
    (w : World) (s : main.State) :
  dial w "1.1.1.1:443" = false ->
  (forall port renderer,
      exists evs,
        main.createPublicTunnel w port renderer s = (Some (Err main.Offline), s, evs) /\
        List.filter is_start evs = []) /\
  (main.publicFlag s = true ->
   forall cmd arg,
     exists err s' evs,
       main.runQRLocal w cmd arg s = (Some (Some err), s', evs) /\
       List.filter is_start evs = [] /\
       main.activeTunnel s' = main.activeTunnel s /\
       (forall port,
           Atoi arg = Some port -> 1 <= port <= 65535 ->
           dial w ("127.0.0.1:" +:+ itoa port) = true ->
           err = main.Offline)).
Proof.
  intros Hoff. split.
  - intros port renderer. now apply createPublicTunnel_offline.
  - intros Hpub cmd arg. unfold main.runQRLocal.
    destruct (Atoi arg) as [port|]; [| run_monad; eexists _, _, _; repeat split; discriminate].
    destruct ((port <? 1) || (port >? 65535)) eqn:Hrange.
    { run_monad. eexists _, _, _. repeat split.
      intros p [= <-] Hp _. apply orb_true_iff in Hrange as [Hr | Hr]; lia. }
    unfold network.IsPortActive.
    run_monad. simpl.
    destruct (negb (main.Changed cmd "quiet") && config.QuietMode (main.cfg s));
      simpl;
      destruct (negb (main.Changed cmd "copy") && config.CopyToClipboard (main.cfg s));
      simpl; rewrite ?Hpub;
      (destruct (dial w ("127.0.0.1:" +:+ itoa port)) eqn:Hact; simpl;
       [ match goal with |- context [main.createPublicTunnel w port ?r ?st] =>
           destruct (createPublicTunnel_offline w port r st Hoff) as (evs & -> & Hevs)
         end; simpl;
         eexists _, _, _; split; [reflexivity |];
         split; [ rewrite ?app_nil_r; simpl; exact Hevs |];
         split; [reflexivity |]; intros; reflexivity
       | try destruct (main.quietFlag s); simpl;
         (eexists _, _, _; split; [reflexivity |];
          split; [reflexivity |]; split; [reflexivity |];
          intros p [= <-] _ Hd; congruence) ]).
Qed.

(** [qrlocal 3000 --public] on a host that is offline. *)
Lemma offline_fails_before_any_spawn_witness :
  dial scenario.offline_world "1.1.1.1:443" = false /\
  exists s' evs,
    @main.runQRLocal subset_runtime scenario.offline_world scenario.no_flag_changed
      "3000" (scenario.flags true EmptyString)
    = (Some (Some main.Offline), s', evs) /\
    List.filter is_start evs = [] /\
    main.activeTunnel s' = None.
Proof.
  split; [reflexivity |].
  destruct (@offline_fails_before_any_spawn subset_runtime scenario.offline_world
              (scenario.flags true EmptyString) eq_refl) as [_ Hrun].
  destruct (Hrun eq_refl scenario.no_flag_changed "3000")
    as (err & s' & evs & Heq & Hevs & Hact & Herr).
  exists s', evs. rewrite Heq.
  rewrite (Herr 3000); [auto | reflexivity | lia | reflexivity].
Defined.

(** ** Where the port is validated *)





(* ===================================================================== *)
(** * Part X. Further properties of the code                             *)
(* ===================================================================== *)

(** ** The reader, beyond the first line *)

Lemma scan_quiet_prefix (re : Regexp) (pre rest : list Read) :
  Forall (tunnel.quiet_read re) pre ->
  tunnel.scan re (pre ++ rest) = tunnel.scan re rest.
Proof.
  induction 1 as [|r pre [Hf He] _ IH]; [reflexivity |].
  rewrite <- app_comm_cons, scan_skips; assumption.
Qed.

(** Whatever the reader sends, it sends at the instant of one of the
    reads. *)
Lemma scan_sends_at_a_read (re : Regexp) (reads : list Read) :
  match tunnel.scan re reads with
  | tunnel.SentURL a _ | tunnel.SentErr a _ => exists r, In r reads /\ read_at r = a
  | tunnel.Silent => True
  end.
Proof.
  induction reads as [|r reads IH]; simpl; [exact I |].
  destruct ((0 <? String.length (line r))%nat &&
            negb (String.eqb (FindString re (line r)) EmptyString)).
  - exists r. auto.
  - destruct (read_err r) as [[|e]|]; try (exists r; auto; fail).
    destruct (tunnel.scan re reads); try exact I;
      destruct IH as (r' & Hin & Hat); exists r'; auto.
Qed.

(** X1. The URL of the session is the match in the first line that has
    one: lines without a match before it are dropped, and the line may be
    the last one, read together with the end of the output (the match is
    looked for before the read error is looked at).  The line has to be
    read before the deadline. *)
Theorem first_matching_line_wins `{Runtime}
    (w : World) (cfg : tunnel.Config) (pre : list Read) (r : Read) (rest : list Read) :
  started w ->
  output w = pre ++ r :: rest ->
  Forall (tunnel.quiet_read (tunnel.URLRegex (tunnel.Provider_ cfg))) pre ->
  FindString (tunnel.URLRegex (tunnel.Provider_ cfg)) (line r) <> EmptyString ->
  Z.max 0 (read_at r) < tunnel.timeout_of cfg ->
  exists t,
    tunnel.NewTunnel w cfg =
    {| value := Ok t;
       events := [EvStart (if goos_windows w then "ssh.exe" else "ssh")
                    (tunnel.sshArgs (tunnel.Provider_ cfg) (tunnel.LocalPort cfg)
                       (tunnel.timeout_of cfg));
                  EvAssignURL (FindString (tunnel.URLRegex (tunnel.Provider_ cfg)) (line r))];
       returned_at := Z.max 0 (read_at r) |} /\
    tunnel.PublicURL t = FindString (tunnel.URLRegex (tunnel.Provider_ cfg)) (line r).
Proof.
  intros (H1 & H2 & H3) Hout Hpre Hne Hlt.
  unfold tunnel.NewTunnel, tunnel.connect. rewrite H1, H2, H3, Hout.
  cbn -[select tunnel.sshArgs tunnel.scan tunnel.timeout_of].
  rewrite scan_quiet_prefix by exact Hpre.
  rewrite scan_first_match by exact Hne.
  cbn -[select tunnel.sshArgs tunnel.timeout_of].
  rewrite (select_sole _ 0 _ _
             (Z.max 0 (read_at r),
              tunnel.CaseURL (FindString (tunnel.URLRegex (tunnel.Provider_ cfg)) (line r)))).
  - cbn -[tunnel.sshArgs tunnel.timeout_of]. eexists. split; reflexivity.
  - simpl. auto.
  - simpl. intros y [<- | [<- | []]]; simpl; [right; lia | now left].
Qed.

(** The banner comes first, the URL on the second line, which is also the
    last: it has no newline and is read together with the end of file. *)
Lemma first_matching_line_wins_witness :
  let out :=
    [ {| read_at := 1 * tunnel.Second;
         line := "Welcome to localhost.run!" +:+ String "010" EmptyString;
         read_err := None |};
      {| read_at := 2 * tunnel.Second;
         line := "https://abcd12.lhr.life tunneled";
         read_err := Some io_EOF |} ] in
  exists t,
    value (@tunnel.NewTunnel subset_runtime
             (scenario.world true None out None) (scenario.lhr_config 3000)) = Ok t /\
    tunnel.PublicURL t = "https://abcd12.lhr.life".
Proof.
  cbv zeta.
  destruct (@first_matching_line_wins subset_runtime
              (scenario.world true None
                 [ {| read_at := 1 * tunnel.Second;
                      line := "Welcome to localhost.run!" +:+ String "010" EmptyString;
                      read_err := None |};
                   {| read_at := 2 * tunnel.Second;
                      line := "https://abcd12.lhr.life tunneled";
                      read_err := Some io_EOF |} ] None)
              (scenario.lhr_config 3000)
              [ {| read_at := 1 * tunnel.Second;
                   line := "Welcome to localhost.run!" +:+ String "010" EmptyString;
                   read_err := None |} ]
              {| read_at := 2 * tunnel.Second;
                 line := "https://abcd12.lhr.life tunneled";
                 read_err := Some io_EOF |}
              [])
    as (t & Heq & Hurl).
  - repeat split.
  - reflexivity.
  - repeat constructor.
  - vm_compute. discriminate.
  - vm_compute. reflexivity.
  - exists t. rewrite Heq. split; [reflexivity |]. rewrite Hurl. vm_compute. reflexivity.
Defined.

(** X2. A read error other than the end of the output, on a line without
    a match and before the deadline, fails the connection with that error
    behind the prefix [error reading output: ], at the instant of the
    read; the subprocess is killed and the context cancelled. *)
Theorem read_error_fails_connect `{Runtime}
    (w : World) (cfg : tunnel.Config) (pre : list Read) (r : Read) (rest : list Read)
    (e : GoError) :
  started w ->
  output w = pre ++ r :: rest ->
  Forall (tunnel.quiet_read (tunnel.URLRegex (tunnel.Provider_ cfg))) pre ->
  FindString (tunnel.URLRegex (tunnel.Provider_ cfg)) (line r) = EmptyString ->
  read_err r = Some (io_Err e) ->
  Z.max 0 (read_at r) < tunnel.timeout_of cfg ->
  tunnel.NewTunnel w cfg =
  {| value := Err (tunnel.ReadFailed e);
     events := [EvStart (if goos_windows w then "ssh.exe" else "ssh")
                  (tunnel.sshArgs (tunnel.Provider_ cfg) (tunnel.LocalPort cfg)
                     (tunnel.timeout_of cfg));
                EvKill; EvCancel];
     returned_at := Z.max 0 (read_at r) |} /\
  Error (tunnel.ReadFailed e) = "error reading output: " +:+ Error e.
Proof.
  intros (H1 & H2 & H3) Hout Hpre Hf He Hlt. split; [| reflexivity].
  unfold tunnel.NewTunnel, tunnel.connect. rewrite H1, H2, H3, Hout.
  cbn -[select tunnel.sshArgs tunnel.scan tunnel.timeout_of].
  rewrite scan_quiet_prefix by exact Hpre.
  assert (Hscan : tunnel.scan (tunnel.URLRegex (tunnel.Provider_ cfg)) (r :: rest)
                  = tunnel.SentErr (read_at r) (tunnel.ReadFailed e)).
  { simpl. rewrite Hf, He. simpl. now rewrite andb_false_r. }
  rewrite Hscan. cbn -[select tunnel.sshArgs tunnel.timeout_of].
  rewrite (select_sole _ 0 _ _
             (Z.max 0 (read_at r), tunnel.CaseErr (tunnel.ReadFailed e))).
  - reflexivity.
  - simpl. auto.
  - simpl. intros y [<- | [<- | []]]; simpl; [right; lia | now left].
Qed.

(** The pipe breaks after one second. *)
Lemma read_error_fails_connect_witness :
  value (@tunnel.NewTunnel subset_runtime
           (scenario.world true None
              [ {| read_at := 1 * tunnel.Second; line := EmptyString;
                   read_err := Some (io_Err (errors_New "read |0: file already closed")) |} ]
              None)
           (scenario.lhr_config 3000))
  = Err (errors_New "error reading output: read |0: file already closed").
Proof.
  destruct (@read_error_fails_connect subset_runtime
              (scenario.world true None
                 [ {| read_at := 1 * tunnel.Second; line := EmptyString;
                      read_err := Some (io_Err (errors_New "read |0: file already closed")) |} ]
                 None)
              (scenario.lhr_config 3000) []
              {| read_at := 1 * tunnel.Second; line := EmptyString;
                 read_err := Some (io_Err (errors_New "read |0: file already closed")) |}
              [] (errors_New "read |0: file already closed"))
    as [Heq _].
  - repeat split.
  - reflexivity.
  - constructor.
  - reflexivity.
  - reflexivity.
  - vm_compute. reflexivity.
  - rewrite Heq. reflexivity.
Defined.

(** ** The deadline *)

(** X3. [NewTunnel] never blocks past the deadline: in every world it
    returns at an instant between its call and the effective timeout (30
    seconds for a zero timeout; at once for a negative one). *)
Theorem NewTunnel_returns_by_the_deadline `{Runtime} (w : World) (cfg : tunnel.Config) :
  0 <= returned_at (tunnel.NewTunnel w cfg) <= Z.max 0 (tunnel.timeout_of cfg).
Proof.
  unfold tunnel.NewTunnel.
  assert (Hc : 0 <= returned_at (tunnel.connect w (tunnel.fresh cfg) (tunnel.timeout_of cfg))
               <= Z.max 0 (tunnel.timeout_of cfg)).
  { unfold tunnel.connect.
    destruct (stdout_pipe_err w); [simpl; lia |].
    destruct (stderr_pipe_err w); [simpl; lia |].
    destruct (start_err w); [simpl; lia |].
    cbn -[select tunnel.sshArgs tunnel.scan tunnel.timeout_of].
    match goal with |- context [select ?p ?n ?c ?cs] =>
      pose proof (select_bounded p n c cs) as Hb;
      destruct (select p n c cs) as [now [url | err | |]]
    end; simpl in *; exact Hb. }
  destruct (value (tunnel.connect w (tunnel.fresh cfg) (tunnel.timeout_of cfg)))
    as [[err|] t]; simpl; exact Hc.
Qed.

(** X4. When nothing that the subprocess prints before the deadline has a
    match, and its output does not end before the deadline, [NewTunnel]
    fails with the timeout error exactly at the deadline, having killed
    the subprocess and cancelled the context. *)
Theorem connect_times_out_at_the_deadline `{Runtime}
    (w : World) (cfg : tunnel.Config) (early late : list Read) :
  started w ->
  output w = early ++ late ->
  Forall (tunnel.quiet_read (tunnel.URLRegex (tunnel.Provider_ cfg))) early ->
  Forall (fun r => Z.max 0 (tunnel.timeout_of cfg) < read_at r) late ->
  tunnel.NewTunnel w cfg =
  {| value := Err tunnel.ConnectTimeout;
     events := [EvStart (if goos_windows w then "ssh.exe" else "ssh")
                  (tunnel.sshArgs (tunnel.Provider_ cfg) (tunnel.LocalPort cfg)
                     (tunnel.timeout_of cfg));
                EvKill; EvCancel];
     returned_at := Z.max 0 (tunnel.timeout_of cfg) |}.
Proof.
  intros (H1 & H2 & H3) Hout Hearly Hlate.
  unfold tunnel.NewTunnel, tunnel.connect. rewrite H1, H2, H3, Hout.
  cbn -[select tunnel.sshArgs tunnel.scan tunnel.timeout_of].
  rewrite scan_quiet_prefix by exact Hearly.
  pose proof (scan_sends_at_a_read (tunnel.URLRegex (tunnel.Provider_ cfg)) late) as Hsent.
  assert (Hsel : select (select_pick w 0) 0 (tunnel.timeout_of cfg, tunnel.CaseTimer)
                   (tunnel.scan_cases (tunnel.scan (tunnel.URLRegex (tunnel.Provider_ cfg)) late)
                    ++ tunnel.ctx_cases None)
                 = (Z.max 0 (tunnel.timeout_of cfg), tunnel.CaseTimer)).
  { apply select_sole; [simpl; auto |].
    rewrite List.Forall_forall in Hlate.
    destruct (tunnel.scan _ late) as [a url | a err |]; simpl in Hsent |- *.
    - destruct Hsent as (r & Hin & <-). specialize (Hlate r Hin).
      intros y [<- | [<- | []]]; [now left | right; simpl; lia].
    - destruct Hsent as (r & Hin & <-). specialize (Hlate r Hin).
      intros y [<- | [<- | []]]; [now left | right; simpl; lia].
    - intros y [<- | []]. now left. }
  cbn -[select tunnel.sshArgs tunnel.scan tunnel.timeout_of] in Hsel |- *.
  rewrite Hsel. reflexivity.
Qed.

(** The relay answers after 45 seconds; the timeout is the default. *)
Lemma connect_times_out_at_the_deadline_witness :
  value (@tunnel.NewTunnel subset_runtime
           (scenario.world true None
              [ {| read_at := 45 * tunnel.Second;
                   line := "https://abcd12.lhr.life" +:+ String "010" EmptyString;
                   read_err := None |} ] None)
           (scenario.lhr_config 3000))
  = Err tunnel.ConnectTimeout.
Proof.
  rewrite (@connect_times_out_at_the_deadline subset_runtime
             (scenario.world true None
                [ {| read_at := 45 * tunnel.Second;
                     line := "https://abcd12.lhr.life" +:+ String "010" EmptyString;
                     read_err := None |} ] None)
             (scenario.lhr_config 3000) []
             [ {| read_at := 45 * tunnel.Second;
                  line := "https://abcd12.lhr.life" +:+ String "010" EmptyString;
                  read_err := None |} ]).
  - reflexivity.
  - repeat split.
  - reflexivity.
  - constructor.
  - repeat constructor.
Defined.

(** ** Failures before the subprocess runs *)

(** X5. [isNetworkError] is false on [nil]; on an error it is true exactly
    when the chain of the error holds a [net.Error] or a [*net.DNSError],
    or the lower-cased message contains one of the seven patterns. *)
Theorem isNetworkError_characterised `{Runtime} (err : option GoError) :
  tunnel.isNetworkError None = false /\
  (tunnel.isNetworkError err = true <->
   exists e,
     err = Some e /\
     (asNetError e = true \/ asDNSError e = true \/
      exists pattern before after,
        In pattern tunnel.networkPatterns /\
        strings_ToLower (Error e) = before +:+ pattern +:+ after)).
Proof.
  split; [reflexivity |]. unfold tunnel.isNetworkError. split.
  - destruct err as [e|]; [| discriminate]. intros Hn. exists e. split; [reflexivity |].
    destruct (asNetError e); [now left |].
    destruct (asDNSError e); [right; now left |].
    right. right. apply existsb_exists in Hn as (pattern & Hin & Hc).
    apply Contains_spec in Hc as (before & after & Heq). eauto 6.
  - intros (e & -> & [-> | [Hd | (pattern & before & after & Hin & Heq)]]);
      [reflexivity | |].
    + rewrite Hd. now destruct (asNetError e).
    + destruct (asNetError e); [reflexivity |].
      destruct (asDNSError e); [reflexivity |].
      apply existsb_exists. exists pattern. split; [exact Hin |].
      apply Contains_spec. eauto.
Qed.



(** X7. When a pipe of the subprocess cannot be created, [NewTunnel] fails
    at once with the error of the pipe behind a prefix, and [Start] is
    never called: the only event is the cancellation of the context. *)
Theorem pipe_failure_starts_nothing `{Runtime}
    (w : World) (cfg : tunnel.Config) (e : GoError) :
  (stdout_pipe_err w = Some e ->
   tunnel.NewTunnel w cfg =
   {| value := Err (Errorf_w "failed to get stdout pipe: " e);
      events := [EvCancel]; returned_at := 0 |}) /\
  (stdout_pipe_err w = None -> stderr_pipe_err w = Some e ->
   tunnel.NewTunnel w cfg =
   {| value := Err (Errorf_w "failed to get stderr pipe: " e);
      events := [EvCancel]; returned_at := 0 |}).
Proof.
  split.
  - intros H1. unfold tunnel.NewTunnel, tunnel.connect. now rewrite H1.
  - intros H1 H2. unfold tunnel.NewTunnel, tunnel.connect. now rewrite H1, H2.
Qed.

(** The process has run out of file descriptors. *)
Lemma pipe_failure_starts_nothing_witness :
  let w :=
    {| goos_windows := false; dial := fun _ => true; local_ip := Ok "192.168.1.5";
       qr_err := None; clipboard_err := None; signal_at := None;
       stdout_pipe_err := Some (errors_New "pipe: too many open files");
       stderr_pipe_err := None; start_err := None; output := [];
       exits_at := None; kill_latency := None; select_pick := fun _ => 0%nat |} in
  events (@tunnel.NewTunnel subset_runtime w (scenario.lhr_config 3000)) = [EvCancel] /\
  value (@tunnel.NewTunnel subset_runtime w (scenario.lhr_config 3000))
  = Err (errors_New "failed to get stdout pipe: pipe: too many open files").
Proof.
  cbv zeta.
  match goal with |- context [@tunnel.NewTunnel _ ?w ?cfg] =>
    destruct (@pipe_failure_starts_nothing subset_runtime w cfg
                (errors_New "pipe: too many open files")) as [Hout _];
    rewrite (Hout eq_refl)
  end.
  split; reflexivity.
Defined.

(** ** What a session holds, and what a failure leaves behind *)

(** X8. Whatever happens, [NewTunnel] leaves no subprocess behind when it
    fails: a failure always ends with the cancellation of the context,
    assigns no URL, and, when [Start] had succeeded, kills the subprocess
    first.  A success kills and cancels nothing, and the session it returns
    has the port and the provider asked for, a started command, a context
    that is not cancelled, and the goroutine that will close [done]. *)
Theorem NewTunnel_cleans_up_or_hands_over `{Runtime} (w : World) (cfg : tunnel.Config) :
  match value (tunnel.NewTunnel w cfg) with
  | Err _ =>
      (exists before, events (tunnel.NewTunnel w cfg) = before ++ [EvCancel]) /\
      List.filter is_assign (events (tunnel.NewTunnel w cfg)) = [] /\
      (started w ->
       exists path args,
         events (tunnel.NewTunnel w cfg) = [EvStart path args; EvKill; EvCancel])
  | Ok t =>
      started w /\
      ~ In EvKill (events (tunnel.NewTunnel w cfg)) /\
      ~ In EvCancel (events (tunnel.NewTunnel w cfg)) /\
      tunnel.localPort t = tunnel.LocalPort cfg /\
      tunnel.provider t = tunnel.Provider_ cfg /\
      tunnel.cmd t =
        Some {| tunnel.Path := if goos_windows w then "ssh.exe" else "ssh";
                tunnel.Args := tunnel.sshArgs (tunnel.Provider_ cfg) (tunnel.LocalPort cfg)
                                 (tunnel.timeout_of cfg);
                tunnel.Process := true |} /\
      tunnel.ctx t = None /\
      tunnel.killed t = None /\
      tunnel.monitored t = true
  end.
Proof.
  unfold tunnel.NewTunnel, tunnel.connect, started.
  destruct (stdout_pipe_err w) as [e1|];
    [simpl; split; [exists []; reflexivity | split; [reflexivity |]];
     intros (Hx & _); discriminate |].
  destruct (stderr_pipe_err w) as [e2|];
    [simpl; split; [exists []; reflexivity | split; [reflexivity |]];
     intros (_ & Hx & _); discriminate |].
  destruct (start_err w) as [e3|];
    [simpl; split; [eexists [_]; reflexivity | split; [reflexivity |]];
     intros (_ & _ & Hx); discriminate |].
  cbn -[select tunnel.sshArgs tunnel.scan tunnel.timeout_of].
  destruct (select _ _ _ _) as [now [url | err | |]];
    cbn -[tunnel.sshArgs tunnel.timeout_of].
  - repeat split; try reflexivity; intros [[=] | [[=] | []]].
  - split; [eexists [_; _]; reflexivity | split; [reflexivity | eauto]].
  - split; [eexists [_; _]; reflexivity | split; [reflexivity | eauto]].
  - split; [eexists [_; _]; reflexivity | split; [reflexivity | eauto]].
Qed.

(** ** [Close] and [Wait], case by case *)




Lemma Close_live_session (w : World) (t : tunnel.Tunnel) (now : Z) :
  tunnel.live_session w t ->
  events (tunnel.Close w t now) = [EvCancel; EvKill] /\
  tunnel.killed (snd (value (tunnel.Close w t now))) = Some now /\
  tunnel.done_closed_at w (snd (value (tunnel.Close w t now))) =
    match kill_latency w with
    | Some d => Some (now + Z.max 0 d)
    | None => None
    end.
Proof.
  intros (Hm & (c & Hc & Hp) & Hk & Hx).
  unfold tunnel.Close, tunnel.done_closed_at, tunnel.reaped_at. simpl.
  rewrite Hc, Hp. simpl. rewrite Hm, Hk, Hx. simpl.
  destruct (kill_latency w); auto.
Qed.

(** X10. [Close] on an established session kills the subprocess and then
    waits for it to be reaped.  If that takes less than five seconds
    [Close] returns no error at the instant the subprocess is reaped; if it
    takes more than five seconds, or never happens, [Close] returns the
    close-timeout error five seconds after the call. *)
Theorem Close_waits_for_the_reaper (w : World) (t : tunnel.Tunnel) (now : Z) :
  tunnel.live_session w t ->
  events (tunnel.Close w t now) = [EvCancel; EvKill] /\
  (forall d,
      kill_latency w = Some d -> 0 <= d < 5 * tunnel.Second ->
      fst (value (tunnel.Close w t now)) = None /\
      returned_at (tunnel.Close w t now) = now + d) /\
  (kill_latency w = None \/
   (exists d, kill_latency w = Some d /\ 5 * tunnel.Second < d) ->
   fst (value (tunnel.Close w t now)) = Some tunnel.CloseTimeout /\
   returned_at (tunnel.Close w t now) = now + 5 * tunnel.Second).
Proof.
  intros Hlive.
  destruct (Close_live_session w t now Hlive) as (Hev & _ & Hdone).
  destruct (Close_select w t now) as [Hv Hat]. rewrite Hv, Hat, Hdone.
  split; [exact Hev |]. split.
  - intros d Hd Hrange. rewrite Hd. simpl.
    rewrite (select_sole _ now _ _ (now + d, None)).
    + split; reflexivity.
    + simpl. right. left. unfold clamp. simpl. f_equal. lia.
    + simpl. intros y [<- | [<- | []]]; unfold clamp; simpl.
      * right. lia.
      * left. f_equal. lia.
  - intros [Hn | (d & Hd & Hlate)].
    + rewrite Hn. simpl.
      rewrite (select_sole _ now _ _ (now + 5 * tunnel.Second, Some tunnel.CloseTimeout)).
      * split; reflexivity.
      * simpl. left. unfold clamp, tunnel.Second. simpl. f_equal. lia.
      * simpl. intros y [<- | []]. left. unfold clamp, tunnel.Second. simpl. f_equal. lia.
    + rewrite Hd. simpl.
      rewrite (select_sole _ now _ _ (now + 5 * tunnel.Second, Some tunnel.CloseTimeout)).
      * split; reflexivity.
      * simpl. left. unfold clamp, tunnel.Second. simpl. f_equal. lia.
      * simpl. unfold tunnel.Second in *.
        intros y [<- | [<- | []]]; unfold clamp; simpl.
        -- left. f_equal. lia.
        -- right. lia.
Qed.

(** The established session of the scenario, closed at 10 s: the subprocess
    is reaped one second later. *)
Lemma Close_waits_for_the_reaper_witness :
  exists t,
    value (@tunnel.NewTunnel subset_runtime scenario.lhr_world (scenario.lhr_config 3000))
      = Ok t /\
    tunnel.live_session scenario.lhr_world t /\
    fst (value (tunnel.Close scenario.lhr_world t (10 * tunnel.Second))) = None /\
    returned_at (tunnel.Close scenario.lhr_world t (10 * tunnel.Second))
      = 11 * tunnel.Second.
Proof.
  eexists. split; [vm_compute; reflexivity |].
  match goal with |- tunnel.live_session ?w ?t /\ _ =>
    assert (Hlive : tunnel.live_session w t)
      by (repeat split; eexists; split; reflexivity);
    split; [exact Hlive |];
    destruct (Close_waits_for_the_reaper w t (10 * tunnel.Second) Hlive)
      as (_ & Hfast & _)
  end.
  destruct (Hfast (1 * tunnel.Second) eq_refl) as [Hv Hat]; [vm_compute; split; congruence |].
  split; [exact Hv | rewrite Hat; reflexivity].
Defined.

(** X11. [Wait] returns when [done] is closed and not before.  On a session
    that was never established it blocks for good.  On an established
    session that nobody has killed it returns when the subprocess ends on
    its own, and blocks for good if it never does.  After a [Close] that
    returned no error, [Wait] returns at once. *)
Theorem Wait_follows_the_subprocess (w : World) (t : tunnel.Tunnel) (now : Z) :
  (tunnel.monitored t = false -> tunnel.Wait w t now = None) /\
  (tunnel.monitored t = true -> tunnel.killed t = None ->
   tunnel.Wait w t now = option_map (Z.max now) (exits_at w)) /\
  (forall closed,
      fst (value (tunnel.Close w t closed)) = None ->
      returned_at (tunnel.Close w t closed) <= now ->
      tunnel.Wait w (snd (value (tunnel.Close w t closed))) now = Some now).
Proof.
  unfold tunnel.Wait. split; [| split].
  - unfold tunnel.done_closed_at. now intros ->.
  - unfold tunnel.done_closed_at, tunnel.reaped_at. intros -> ->.
    destruct (exits_at w); reflexivity.
  - intros closed Hnil Hlater.
    destruct (Close_select w t closed) as [Hv Hat].
    rewrite Hv in Hnil. rewrite Hat in Hlater.
    match type of Hnil with context [select ?p ?n ?c ?cs] =>
      destruct (select_spec p n c cs) as [Hin _]
    end.
    destruct (tunnel.done_closed_at w (snd (value (tunnel.Close w t closed)))) as [d|];
      cbn [tunnel.done_cases] in *; simpl in Hin.
    + destruct Hin as [Hin | [Hin | []]]; rewrite <- Hin in Hlater, Hnil;
        simpl in *; [discriminate |].
      f_equal. lia.
    + destruct Hin as [Hin | []]. rewrite <- Hin in Hnil. discriminate.
Qed.

(** The session of the scenario: waiting at 5 s blocks for good while nobody
    closes it; after the [Close] at 10 s has returned, waiting at 12 s
    returns at once. *)
Lemma Wait_follows_the_subprocess_witness :
  exists t,
    value (@tunnel.NewTunnel subset_runtime scenario.lhr_world (scenario.lhr_config 3000))
      = Ok t /\
    tunnel.Wait scenario.lhr_world t (5 * tunnel.Second) = None /\
    tunnel.Wait scenario.lhr_world
      (snd (value (tunnel.Close scenario.lhr_world t (10 * tunnel.Second))))
      (12 * tunnel.Second) = Some (12 * tunnel.Second).
Proof.
  eexists. split; [vm_compute; reflexivity |].
  match goal with |- tunnel.Wait ?w ?t _ = None /\ _ =>
    destruct (Wait_follows_the_subprocess w t (5 * tunnel.Second)) as (_ & Hlive & _);
    destruct (Wait_follows_the_subprocess w t (12 * tunnel.Second)) as (_ & _ & Hclosed)
  end.
  split.
  - rewrite Hlive; reflexivity.
  - apply Hclosed; vm_compute; [reflexivity | discriminate].
Defined.

(** ** The orchestrator, branch by branch *)

Ltac unfold_run :=
  unfold main.bind, main.get, main.put, main.ret, main.emit, main.block,
    main.PrintError, main.PrintInfo, main.PrintSuccess, main.print,
    main.RenderOutput, main.NewRenderer.

Ltac reduce_run :=
  cbn -[tunnel.NewTunnel tunnel.Close tunnel.GetProvider itoa String.append
        main.createPublicTunnel main.waitForShutdown] in *.

(** One branching point of the code of [main] at a time. *)
Ltac step_run :=
  match goal with
  | |- context [if ?c then _ else _] => destruct c eqn:?
  | |- context [match ?x with Some _ => _ | None => _ end] => destruct x eqn:?
  | |- context [match ?x with Ok _ => _ | Err _ => _ end] => destruct x eqn:?
  | |- context [main.createPublicTunnel ?w ?p ?r ?s] =>
      destruct (main.createPublicTunnel w p r s) as [[? ?] ?] eqn:?
  | |- context [main.waitForShutdown ?w ?r ?s] =>
      destruct (main.waitForShutdown w r s) as [[? ?] ?] eqn:?
  end; reduce_run.

Lemma probe_is_not_the_listener_check (port : Z) :
  "127.0.0.1:" +:+ itoa port <> "1.1.1.1:443".
Proof. intros E. vm_compute in E. discriminate. Qed.

(** X12. Without [--public], and with no tunnel active, a run never
    touches the tunnel: it starts nothing, does not probe the internet,
    leaves no tunnel active and always returns.  When its argument is a
    port in range with a listener, the local address is known and the QR
    code can be drawn, it returns no error after rendering
    [http://<address>:<port>] as a local URL. *)
Theorem local_mode_shares_the_lan_address `{Runtime}
    (w : World) (cmd : main.Command) (arg : string) (s : main.State) :
  main.publicFlag s = false ->
  main.activeTunnel s = None ->
  List.filter is_tunnel_event (snd (main.runQRLocal w cmd arg s)) = [] /\
  ~ In (EvDial "1.1.1.1:443") (snd (main.runQRLocal w cmd arg s)) /\
  main.activeTunnel (snd (fst (main.runQRLocal w cmd arg s))) = None /\
  fst (fst (main.runQRLocal w cmd arg s)) <> None /\
  (forall port ip,
      Atoi arg = Some port -> 1 <= port <= 65535 ->
      dial w ("127.0.0.1:" +:+ itoa port) = true ->
      local_ip w = Ok ip ->
      qr_err w = None ->
      fst (fst (main.runQRLocal w cmd arg s)) = Some None /\
      In (EvRender ("http://" +:+ ip +:+ ":" +:+ itoa port) false)
         (snd (main.runQRLocal w cmd arg s))).
Proof.
  intros Hpub Hact.
  unfold main.runQRLocal, network.IsPortActive, network.GenerateLocalURL. unfold_run.
  destruct (Atoi arg) as [port|];
    [| simpl; split; [reflexivity |]; split; [tauto |]; split; [exact Hact |];
       split; discriminate].
  destruct ((port <? 1) || (port >? 65535)) eqn:Hrange.
  { simpl. split; [reflexivity |]. split; [tauto |]. split; [exact Hact |].
    split; [discriminate |].
    intros p ip [= <-] Hp. apply orb_true_iff in Hrange as [Hr | Hr]; lia. }
  pose proof (probe_is_not_the_listener_check port) as Hneq.
  reduce_run.
  repeat step_run; rewrite ?Hpub, ?Hact in *; try discriminate.
  all: split; [reflexivity |].
  all: split; [intros Hin; simpl in Hin; rewrite ?in_app_iff in Hin; simpl in Hin;
               intuition congruence |].
  all: split; [first [assumption | reflexivity] |].
  all: split; [discriminate |].
  all: let Ha := fresh "Ha" in
       let Hd := fresh "Hd" in
       let Hip := fresh "Hip" in
       intros ? ? Ha ? Hd Hip ?; injection Ha as <-;
       try (rewrite Hd in *; discriminate); try congruence;
       rewrite Hip in *; try discriminate;
       repeat match goal with
              | Heq : Ok _ = Ok _ |- _ => injection Heq as <-
              end;
       (split; [reflexivity | simpl; rewrite ?in_app_iff; simpl; tauto]).
Qed.
(** The scenario of the specification: port 3000 has a listener and the
    address of the machine is 192.168.1.5. *)
Lemma local_mode_shares_the_lan_address_witness :
  fst (fst (@main.runQRLocal subset_runtime scenario.lhr_world scenario.no_flag_changed
              "3000" (scenario.flags false EmptyString))) = Some None /\
  In (EvRender "http://192.168.1.5:3000" false)
     (snd (@main.runQRLocal subset_runtime scenario.lhr_world scenario.no_flag_changed
             "3000" (scenario.flags false EmptyString))).
Proof.
  destruct (@local_mode_shares_the_lan_address subset_runtime scenario.lhr_world
              scenario.no_flag_changed "3000" (scenario.flags false EmptyString)
              eq_refl eq_refl) as (_ & _ & _ & _ & Hok).
  apply (Hok 3000 "192.168.1.5"); try reflexivity. lia.
Defined.

(** X13. When the argument is a port in range on which nothing listens, a
    run stops there: it returns the error [port <port> is not active], has
    dialled the port once and nothing else, renders nothing and leaves the
    active tunnel as it was. *)
Theorem inactive_port_stops_the_run `{Runtime}
    (w : World) (cmd : main.Command) (arg : string) (s : main.State) (port : Z) :
  Atoi arg = Some port ->
  1 <= port <= 65535 ->
  dial w ("127.0.0.1:" +:+ itoa port) = false ->
  fst (fst (main.runQRLocal w cmd arg s)) =
    Some (Some (errors_New ("port " +:+ itoa port +:+ " is not active"))) /\
  List.filter (fun e => negb (is_print e)) (snd (main.runQRLocal w cmd arg s)) =
    [EvDial ("127.0.0.1:" +:+ itoa port)] /\
  main.activeTunnel (snd (fst (main.runQRLocal w cmd arg s))) = main.activeTunnel s.
Proof.
  intros Ha Hp Hd.
  unfold main.runQRLocal, network.IsPortActive. unfold_run. rewrite Ha.
  assert (Hr : (port <? 1) || (port >? 65535) = false).
  { rewrite Z.gtb_ltb. apply orb_false_iff. split; apply Z.ltb_ge; lia. }
  rewrite Hr.
  reduce_run. rewrite Hd. reduce_run.
  repeat step_run; repeat split; reflexivity.
Qed.

Lemma inactive_port_stops_the_run_witness :
  let w :=
    {| goos_windows := false;
       dial := fun _ => false; local_ip := Ok "192.168.1.5";
       qr_err := None; clipboard_err := None; signal_at := None;
       stdout_pipe_err := None; stderr_pipe_err := None; start_err := None;
       output := []; exits_at := None; kill_latency := None;
       select_pick := fun _ => 0%nat |} in
  @main.runQRLocal subset_runtime w scenario.no_flag_changed "3000"
    (scenario.flags false EmptyString)
  = (Some (Some (errors_New "port 3000 is not active")),
     scenario.flags false EmptyString,
     [EvDial "127.0.0.1:3000";
      EvPrint PError "No service is listening on port 3000";
      EvPrint PInfo "Make sure your server is running before sharing it."]).
Proof.
  cbv zeta.
  match goal with |- @main.runQRLocal _ ?w ?c ?a ?s = _ =>
    destruct (@inactive_port_stops_the_run subset_runtime w c a s 3000
                eq_refl ltac:(lia) eq_refl) as (Hres & _ & _)
  end.
  vm_compute in Hres |- *. reflexivity.
Defined.

(** ** What is printed *)

Lemma NewTunnel_prints_nothing `{Runtime} (w : World) (cfg : tunnel.Config) :
  List.filter is_print (events (tunnel.NewTunnel w cfg)) = [].
Proof.
  unfold tunnel.NewTunnel, tunnel.connect.
  destruct (stdout_pipe_err w); [reflexivity |].
  destruct (stderr_pipe_err w); [reflexivity |].
  destruct (start_err w); [reflexivity |].
  cbn -[select tunnel.sshArgs tunnel.scan].
  destruct (select _ _ _ _) as [now [url | err | |]]; reflexivity.
Qed.

Lemma Close_prints_nothing (w : World) (t : tunnel.Tunnel) (now : Z) :
  List.filter is_print (events (tunnel.Close w t now)) = [].
Proof.
  unfold tunnel.Close. simpl.
  destruct (match tunnel.cmd t with Some c => tunnel.Process c | None => false end);
    reflexivity.
Qed.

Lemma createPublicTunnel_quiet `{Runtime}
    (w : World) (port : Z) (renderer : main.Renderer) (s : main.State) :
  main.quiet renderer = true ->
  List.filter is_print (snd (main.createPublicTunnel w port renderer s)) = [].
Proof.
  intros Hq. unfold main.createPublicTunnel, tunnel.IsOnline. unfold_run.
  rewrite Hq. reduce_run.
  repeat step_run; rewrite ?app_nil_r, ?List.filter_app, ?NewTunnel_prints_nothing;
    reflexivity.
Qed.

Lemma waitForShutdown_quiet `{Runtime}
    (w : World) (renderer : main.Renderer) (s : main.State) :
  main.quiet renderer = true ->
  List.filter is_print (snd (main.waitForShutdown w renderer s)) = [].
Proof.
  intros Hq. unfold main.waitForShutdown, main.cleanupTunnel. unfold_run.
  rewrite Hq. reduce_run.
  repeat step_run; rewrite ?app_nil_r, ?List.filter_app, ?Close_prints_nothing;
    reflexivity.
Qed.

(** X14. In quiet mode, whether set by the flag or taken from the
    configuration because the flag was not given, a run prints no
    message: no error, no information, no success line, in any world and
    for any argument.  (The QR code itself is rendered, not printed as a
    message.) *)
Theorem quiet_mode_prints_no_message `{Runtime}
    (w : World) (cmd : main.Command) (arg : string) (s : main.State) :
  main.quietFlag s = true \/
  (main.Changed cmd "quiet" = false /\ config.QuietMode (main.cfg s) = true) ->
  List.filter is_print (snd (main.runQRLocal w cmd arg s)) = [].
Proof.
  intros Hquiet.
  unfold main.runQRLocal, network.IsPortActive, network.GenerateLocalURL. unfold_run.
  destruct (Atoi arg) as [port|]; [| reflexivity].
  destruct ((port <? 1) || (port >? 65535)); [reflexivity |].
  reduce_run.
  destruct (negb (main.Changed cmd "quiet") && config.QuietMode (main.cfg s)) eqn:Hq;
    reduce_run.
  - repeat step_run;
      repeat match goal with
             | Heq : main.createPublicTunnel ?w ?p ?r ?s = (_, _, ?l) |- _ =>
                 let Hl := fresh "Hl" in
                 pose proof (createPublicTunnel_quiet w p r s eq_refl) as Hl;
                 rewrite Heq in Hl; simpl in Hl; clear Heq
             | Heq : main.waitForShutdown ?w ?r ?s = (_, _, ?l) |- _ =>
                 let Hl := fresh "Hl" in
                 pose proof (waitForShutdown_quiet w r s eq_refl) as Hl;
                 rewrite Heq in Hl; simpl in Hl; clear Heq
             end;
      rewrite ?app_nil_r, ?List.filter_app; simpl;
      rewrite ?app_nil_r, ?List.filter_app; simpl;
      repeat match goal with Hl : List.filter is_print _ = [] |- _ => rewrite Hl; clear Hl end;
      reflexivity.
  - assert (Hf : main.quietFlag s = true).
    { destruct Hquiet as [Hf | [Hc Hm]]; [exact Hf |].
      rewrite Hc, Hm in Hq. discriminate. }
    destruct (negb (main.Changed cmd "copy") && config.CopyToClipboard (main.cfg s));
      reduce_run; rewrite Hf;
    repeat step_run;
      repeat match goal with
             | Heq : main.createPublicTunnel ?w ?p ?r ?s = (_, _, ?l) |- _ =>
                 let Hl := fresh "Hl" in
                 pose proof (createPublicTunnel_quiet w p r s eq_refl) as Hl;
                 rewrite Heq in Hl; simpl in Hl; clear Heq
             | Heq : main.waitForShutdown ?w ?r ?s = (_, _, ?l) |- _ =>
                 let Hl := fresh "Hl" in
                 pose proof (waitForShutdown_quiet w r s eq_refl) as Hl;
                 rewrite Heq in Hl; simpl in Hl; clear Heq
             end;
      rewrite ?app_nil_r, ?List.filter_app; simpl;
      rewrite ?app_nil_r, ?List.filter_app; simpl;
      repeat match goal with Hl : List.filter is_print _ = [] |- _ => rewrite Hl; clear Hl end;
      reflexivity.
Qed.

(** [qrlocal 3000 --public -q] with the relay of the scenario. *)
Lemma quiet_mode_prints_no_message_witness :
  List.filter is_print
    (snd (@main.runQRLocal subset_runtime scenario.lhr_world scenario.no_flag_changed
            "3000" (main.mkState true false true EmptyString config.DefaultConfig None 0)))
  = [].
Proof.
  apply (@quiet_mode_prints_no_message subset_runtime). left. reflexivity.
Defined.

(** ** The clipboard *)

(** X15. A failure to write the clipboard is not fatal: what a run
    returns, the state it leaves and everything it does apart from the
    messages it prints are the same whether [clipboard.WriteAll] fails or
    not. *)
Theorem clipboard_failure_is_not_fatal `{Runtime}
    (w : World) (cmd : main.Command) (arg : string) (s : main.State)
    (e1 e2 : option GoError) :
  fst (main.runQRLocal (with_clipboard_err e1 w) cmd arg s) =
  fst (main.runQRLocal (with_clipboard_err e2 w) cmd arg s) /\
  List.filter (fun e => negb (is_print e))
    (snd (main.runQRLocal (with_clipboard_err e1 w) cmd arg s)) =
  List.filter (fun e => negb (is_print e))
    (snd (main.runQRLocal (with_clipboard_err e2 w) cmd arg s)).
Proof.
  unfold main.runQRLocal, network.IsPortActive, network.GenerateLocalURL.
  change (main.createPublicTunnel (with_clipboard_err e1 w))
    with (main.createPublicTunnel w).
  change (main.createPublicTunnel (with_clipboard_err e2 w))
    with (main.createPublicTunnel w).
  change (main.waitForShutdown (with_clipboard_err e1 w))
    with (main.waitForShutdown w).
  change (main.waitForShutdown (with_clipboard_err e2 w))
    with (main.waitForShutdown w).
  unfold_run.
  destruct (Atoi arg) as [port|]; [| split; reflexivity].
  destruct ((port <? 1) || (port >? 65535)); [split; reflexivity |].
  reduce_run.
  repeat step_run; try (split; reflexivity).
  all: destruct e1, e2; reduce_run; repeat step_run;
    rewrite ?app_nil_r, ?List.filter_app; simpl; split; reflexivity.
Qed.

(** ** The tunnel of a run *)

Lemma NewTunnel_ok_is_open `{Runtime} (w : World) (cfg : tunnel.Config) (t : tunnel.Tunnel) :
  value (tunnel.NewTunnel w cfg) = Ok t ->
  tunnel.ctx t = None /\
  ~ In EvCancel (events (tunnel.NewTunnel w cfg)) /\
  ~ In EvKill (events (tunnel.NewTunnel w cfg)).
Proof.
  unfold tunnel.NewTunnel, tunnel.connect.
  destruct (stdout_pipe_err w); [discriminate |].
  destruct (stderr_pipe_err w); [discriminate |].
  destruct (start_err w); [discriminate |].
  cbn -[select tunnel.sshArgs tunnel.scan].
  destruct (select _ _ _ _) as [now [url | err | |]];
    cbn -[tunnel.sshArgs]; try discriminate.
  intros [= <-]. repeat split; try reflexivity; intros [[=] | [[=] | []]].
Qed.

Lemma Close_cancels (w : World) (t : tunnel.Tunnel) (now : Z) :
  tunnel.ctx (snd (value (tunnel.Close w t now))) <> None /\
  In EvCancel (events (tunnel.Close w t now)).
Proof.
  unfold tunnel.Close. simpl. split; [| now left].
  destruct (match tunnel.cmd t with Some c => tunnel.Process c | None => false end);
    simpl; destruct (tunnel.ctx t); discriminate.
Qed.

(** [createPublicTunnel] either fails and leaves the state as it was, or
    sets the active tunnel to a session that is open. *)
Lemma createPublicTunnel_outcome `{Runtime}
    (w : World) (port : Z) (renderer : main.Renderer) (s : main.State) :
  (exists e evs,
      main.createPublicTunnel w port renderer s = (Some (Err e), s, evs)) \/
  (exists t now evs,
      main.createPublicTunnel w port renderer s =
        (Some (Ok (tunnel.PublicURL t)), main.set_tunnel t now s, evs) /\
      tunnel.ctx t = None /\
      ~ In EvCancel evs /\ ~ In EvKill evs).
Proof.
  unfold main.createPublicTunnel, tunnel.IsOnline. unfold_run. reduce_run.
  destruct (dial w "1.1.1.1:443"); reduce_run;
    [| left; destruct (main.quiet renderer); reduce_run; eauto].
  match goal with |- context [tunnel.GetProvider ?n ?c] =>
    destruct (tunnel.GetProvider n c) as [p | e]
  end; reduce_run;
    [| left; destruct (main.quiet renderer); reduce_run; eauto].
  match goal with |- context [tunnel.NewTunnel ?w ?c] =>
    pose proof (NewTunnel_ok_is_open w c) as Hopen;
    destruct (tunnel.NewTunnel w c) as [[t | e] evs at_]
  end; simpl in Hopen; reduce_run.
  - right. destruct (Hopen t eq_refl) as (Hctx & Hnc & Hnk).
    exists t, at_.
    destruct (main.quiet renderer); reduce_run; eexists; (split; [reflexivity |]);
      (split; [exact Hctx |]); split; intros Hin; simpl in Hin;
      rewrite ?in_app_iff in Hin; simpl in Hin;
      intuition (try discriminate; auto).
  - left. destruct (main.quiet renderer); reduce_run; eauto.
Qed.

(** [waitForShutdown] with an active tunnel: without a signal it blocks
    and touches nothing; with one it closes the tunnel and returns. *)
Lemma waitForShutdown_outcome `{Runtime}
    (w : World) (renderer : main.Renderer) (s : main.State) (t : tunnel.Tunnel) :
  main.activeTunnel s = Some t ->
  (signal_at w = None /\ main.waitForShutdown w renderer s = (None, s, [])) \/
  (exists t' s' evs,
      main.waitForShutdown w renderer s = (Some tt, s', evs) /\
      main.activeTunnel s' = Some t' /\
      tunnel.ctx t' <> None /\
      In EvCancel evs).
Proof.
  intros Ht. unfold main.waitForShutdown, main.cleanupTunnel. unfold_run.
  destruct (signal_at w) as [sig|]; [| left; auto].
  right. destruct (main.quiet renderer); reduce_run; rewrite Ht; reduce_run;
    match goal with |- context [tunnel.Close ?w ?t ?now] =>
      destruct (Close_cancels w t now) as [Hctx Hin];
      destruct (tunnel.Close w t now) as [[e t'] evs at_]
    end; simpl in Hctx, Hin;
    destruct e; reduce_run;
    eexists _, _, _; (split; [reflexivity |]); (split; [reflexivity |]);
    (split; [exact Hctx |]); rewrite ?in_app_iff; simpl; rewrite ?in_app_iff; tauto.
Qed.

(** X16. The tunnel that a run opens (no tunnel was active before) is
    closed when the run returns without an error: the context of the
    session is cancelled.  A run that holds a tunnel and does not return
    is waiting for a signal that never comes, with the tunnel open.  A run
    that holds a tunnel and returns an error is one in which the QR code
    could not be drawn: it returns that error with the tunnel still open,
    nothing cancelled and nothing killed. *)
Theorem a_run_closes_the_tunnel_it_opened `{Runtime}
    (w : World) (cmd : main.Command) (arg : string) (s : main.State)
    (res : option (option GoError)) (s' : main.State) (evs : list Event)
    (t : tunnel.Tunnel) :
  main.activeTunnel s = None ->
  main.runQRLocal w cmd arg s = (res, s', evs) ->
  main.activeTunnel s' = Some t ->
  (res = Some None -> tunnel.ctx t <> None /\ In EvCancel evs) /\
  (res = None -> tunnel.ctx t = None /\ signal_at w = None) /\
  (forall e, res = Some (Some e) ->
             qr_err w = Some e /\ tunnel.ctx t = None /\
             ~ In EvCancel evs /\ ~ In EvKill evs).
Proof.
  intros Hnone.
  unfold main.runQRLocal, network.IsPortActive, network.GenerateLocalURL. unfold_run.
  destruct (Atoi arg) as [port|]; [| intros [= <- <- <-]; congruence].
  destruct ((port <? 1) || (port >? 65535)); [intros [= <- <- <-]; congruence |].
  reduce_run.
  repeat match goal with
         | |- context [main.createPublicTunnel ?w ?p ?r ?s] =>
             let Hout := fresh "Hout" in
             pose proof (createPublicTunnel_outcome w p r s) as Hout;
             destruct Hout as [(e0 & evs0 & ->) | (t0 & now0 & evs0 & -> & Hctx0 & Hnc0 & Hnk0)];
             reduce_run
         | |- context [main.waitForShutdown ?w ?r ?s] =>
             let Hout := fresh "Hout" in
             pose proof (waitForShutdown_outcome w r s) as Hout;
             specialize (Hout _ eq_refl);
             destruct Hout as [[Hsig ->] | (t1 & s1 & evs1 & -> & Hact1 & Hctx1 & Hin1)];
             reduce_run
         | |- context [if ?c then _ else _] => destruct c eqn:?; reduce_run
         | |- context [match ?x with Some _ => _ | None => _ end] =>
             destruct x eqn:?; reduce_run
         | |- context [match ?x with Ok _ => _ | Err _ => _ end] =>
             destruct x eqn:?; reduce_run
         end.
  all: try congruence.
  all: intros [= <- <- <-]; reduce_run; intros Hact.
  all: try congruence.
  all: try (injection Hact as <-).
  all: repeat match goal with
              | Ha : main.activeTunnel ?x = Some ?a,
                Hb : main.activeTunnel ?x = Some ?b |- _ =>
                  rewrite Ha in Hb; injection Hb as <-
              end.
  all: (split; [intros Hres; try discriminate |
                split; [intros Hres; try discriminate |
                        intros e' Hres; try discriminate]]).
  all: try (injection Hres as <-).
  all: repeat match goal with
              | |- _ /\ _ => split
              | |- ?a = ?a => reflexivity
              | |- tunnel.ctx _ = None => assumption
              | |- tunnel.ctx _ <> None => assumption
              | |- signal_at _ = None => assumption
              | |- ~ _ =>
                  let Hin := fresh "Hin" in
                  intros Hin; simpl in Hin; rewrite ?in_app_iff in Hin; simpl in Hin;
                  intuition (try discriminate; auto)
              | |- _ \/ _ =>
                  right; rewrite ?in_app_iff; simpl; rewrite ?in_app_iff; tauto
              end.
Qed.

(** [qrlocal 3000 --public] with the relay of the scenario, interrupted
    after a minute. *)
Lemma a_run_closes_the_tunnel_it_opened_witness :
  exists s' evs t,
    @main.runQRLocal subset_runtime scenario.lhr_world scenario.no_flag_changed
      "3000" (scenario.flags true EmptyString) = (Some None, s', evs) /\
    main.activeTunnel s' = Some t /\
    tunnel.ctx t <> None /\
    In EvCancel evs.
Proof.
  destruct (@main.runQRLocal subset_runtime scenario.lhr_world scenario.no_flag_changed
              "3000" (scenario.flags true EmptyString)) as [[res s'] evs] eqn:Erun.
  assert (Hres : res = Some None)
    by (apply (f_equal (fun x => fst (fst x))) in Erun; vm_compute in Erun; congruence).
  subst res.
  destruct (main.activeTunnel s') as [t|] eqn:Hact;
    [| apply (f_equal (fun x => main.activeTunnel (snd (fst x)))) in Erun;
       simpl in Erun; rewrite Hact in Erun; vm_compute in Erun; discriminate].
  exists s', evs, t. split; [reflexivity |]. split; [exact Hact |].
  exact (proj1 (@a_run_closes_the_tunnel_it_opened subset_runtime
                  scenario.lhr_world scenario.no_flag_changed "3000"
                  (scenario.flags true EmptyString) (Some None) s' evs t
                  eq_refl Erun Hact) eq_refl).
Defined.

(** X17. When the machine is online and the provider asked for cannot be
    resolved (its name is the [--provider] flag, or the default provider
    of the configuration when the flag is empty), [createPublicTunnel]
    returns the error of the lookup, starts nothing and leaves the state
    as it was.  Whatever the error is, also an invalid pattern in the
    configuration, the message printed says [Unknown provider]. *)
Theorem unresolved_provider_stops_before_the_tunnel `{Runtime}
    (w : World) (port : Z) (renderer : main.Renderer) (s : main.State) (e : GoError) :
  let providerName :=
    if String.eqb (main.providerFlag s) EmptyString
    then config.DefaultProvider (main.cfg s)
    else main.providerFlag s in
  dial w "1.1.1.1:443" = true ->
  tunnel.GetProvider providerName (Some (main.cfg s)) = Err e ->
  main.createPublicTunnel w port renderer s =
  (Some (Err e), s,
   EvDial "1.1.1.1:443" ::
   (if main.quiet renderer then []
    else [EvPrint PError ("Unknown provider: " +:+ providerName);
          EvPrint PInfo "Use 'qrlocal providers' to see available providers."])).
Proof.
  intros providerName Hon Hget.
  unfold main.createPublicTunnel, tunnel.IsOnline. unfold_run.
  rewrite Hon. reduce_run. fold providerName. rewrite Hget. reduce_run.
  destruct (main.quiet renderer); reflexivity.
Qed.

(** [qrlocal 3000 --public --provider ngrok]. *)
Lemma unresolved_provider_stops_before_the_tunnel_witness :
  @main.createPublicTunnel subset_runtime scenario.lhr_world 3000
    (main.NewRenderer false) (scenario.flags true "ngrok")
  = (Some (Err (tunnel.unknown_provider "ngrok")), scenario.flags true "ngrok",
     [EvDial "1.1.1.1:443";
      EvPrint PError "Unknown provider: ngrok";
      EvPrint PInfo "Use 'qrlocal providers' to see available providers."]).
Proof.
  apply (@unresolved_provider_stops_before_the_tunnel subset_runtime
           scenario.lhr_world 3000 (main.NewRenderer false)
           (scenario.flags true "ngrok") (tunnel.unknown_provider "ngrok"));
    vm_compute; reflexivity.
Defined.

(** ** The interface scan of package [network] *)

Lemma land_pow2 (f n : Z) :
  0 <= n -> Z.land f (2 ^ n) = if Z.testbit f n then 2 ^ n else 0.
Proof.
  intros Hn. apply Z.bits_inj'. intros m Hm.
  rewrite Z.land_spec, Z.pow2_bits_eqb by exact Hn.
  destruct (Z.eqb_spec n m) as [-> | Hne].
  - destruct (Z.testbit f m); simpl.
    + rewrite Z.pow2_bits_eqb by exact Hn. now rewrite Z.eqb_refl.
    + now rewrite Z.bits_0.
  - rewrite andb_false_r.
    destruct (Z.testbit f n).
    + rewrite Z.pow2_bits_eqb by exact Hn.
      symmetry. now apply Z.eqb_neq.
    + now rewrite Z.bits_0.
Qed.

Lemma skipped_iff_not_listed (iface : network.Interface) :
  negb (Z.land (network.Flags iface) network.FlagLoopback =? 0) ||
  (Z.land (network.Flags iface) network.FlagUp =? 0) = false <->
  Z.testbit (network.Flags iface) 0 = true /\
  Z.testbit (network.Flags iface) 2 = false.
Proof.
  change network.FlagLoopback with (2 ^ 2).
  change network.FlagUp with (2 ^ 0).
  rewrite !land_pow2 by lia.
  destruct (Z.testbit (network.Flags iface) 0),
           (Z.testbit (network.Flags iface) 2); simpl; split;
    intros Hs; try reflexivity; try discriminate; try tauto;
    destruct Hs; discriminate.
Qed.

Lemma To4_spec (ip p4 : network.IP) :
  network.To4 ip = p4 ->
  match p4 with
  | Some q => exists a b c d, network.is_v4 ip a b c d /\ q = [a; b; c; d]
  | None => forall a b c d, ~ network.is_v4 ip a b c d
  end.
Proof.
  intros <-. unfold network.To4.
  destruct ip as [l |]; simpl.
  2:{ intros ? ? ? ? [E | E]; discriminate. }
  destruct l as [| b0 [| b1 [| b2 [| b3 l]]]]; simpl;
    try (intros ? ? ? ? [E | E]; discriminate).
  destruct l as [| b4 l]; simpl.
  { exists b0, b1, b2, b3. split; [left |]; reflexivity. }
  do 11 (destruct l as [| ? l]; simpl;
         [intros ? ? ? ? [E | E]; discriminate |]).
  destruct l as [| ? l]; simpl.
  2:{ intros ? ? ? ? [E | E]; discriminate. }
  repeat match goal with
         | |- context [Byte.eqb ?x ?y] =>
             let E := fresh "E" in
             destruct (Byte.eqb x y) eqn:E;
             [apply Byte.byte_dec_bl in E; subst |
              apply Byte.eqb_false in E]; simpl
         end;
    try (intros ? ? ? ? [E' | E']; [discriminate |];
         cbn in E'; injection E'; intros; subst; congruence).
  eexists _, _, _, _. split; [right |]; reflexivity.
Qed.

Lemma is_v4_To4 (ip : network.IP) (a b c d : Byte.byte) :
  network.is_v4 ip a b c d -> network.To4 ip = Some [a; b; c; d].
Proof. intros [-> | ->]; reflexivity. Qed.

Lemma is_v4_IsLoopback (ip : network.IP) (a b c d : Byte.byte) :
  network.is_v4 ip a b c d -> network.IsLoopback ip = Byte.eqb a Byte.x7f.
Proof.
  intros Hv. unfold network.IsLoopback.
  now rewrite (is_v4_To4 ip a b c d Hv).
Qed.

Lemma is_v4_inj (ip : network.IP) (a b c d a' b' c' d' : Byte.byte) :
  network.is_v4 ip a b c d -> network.is_v4 ip a' b' c' d' ->
  a = a' /\ b = b' /\ c = c' /\ d = d'.
Proof.
  intros Hv Hv'. apply is_v4_To4 in Hv. apply is_v4_To4 in Hv'.
  rewrite Hv in Hv'. injection Hv' as -> -> -> ->. tauto.
Qed.

(** One step of the inner loop. *)
Lemma scan_addrs_step (addr : network.Addr) (rest : list network.Addr) :
  (exists a b c d,
      network.usable_as addr a b c d /\
      network.scan_addrs (addr :: rest) = Some (network.dotted [a; b; c; d])) \/
  (~ network.usable addr /\
   network.scan_addrs (addr :: rest) = network.scan_addrs rest).
Proof.
  assert (Hip : network.scan_addrs (addr :: rest) =
                match network.addr_ip addr with
                | None => network.scan_addrs rest
                | Some _ =>
                    if network.IsLoopback (network.addr_ip addr)
                    then network.scan_addrs rest
                    else match network.To4 (network.addr_ip addr) with
                         | Some p4 => Some (network.dotted p4)
                         | None => network.scan_addrs rest
                         end
                end).
  { destruct addr; reflexivity. }
  rewrite Hip. clear Hip.
  pose proof (To4_spec (network.addr_ip addr) _ eq_refl) as H4.
  destruct (network.To4 (network.addr_ip addr)) as [q |] eqn:E4.
  - destruct H4 as (a & b & c & d & Hv & ->).
    rewrite (is_v4_IsLoopback _ a b c d Hv).
    assert (Hsome : exists l, network.addr_ip addr = Some l).
    { destruct Hv as [-> | ->]; eexists; reflexivity. }
    destruct Hsome as [l Hl]. rewrite Hl.
    destruct (Byte.eqb a Byte.x7f) eqn:Ea.
    + right. split; [| reflexivity].
      apply Byte.byte_dec_bl in Ea. subst a.
      intros (a' & b' & c' & d' & Hv' & Hne).
      destruct (is_v4_inj _ _ _ _ _ _ _ _ _ Hv Hv') as [<- _].
      now apply Hne.
    + left. exists a, b, c, d. split; [| reflexivity].
      split; [exact Hv | now apply Byte.eqb_false].
  - right. split.
    + intros (a & b & c & d & Hv & _). exact (H4 a b c d Hv).
    + destruct (network.addr_ip addr); [| reflexivity].
      now destruct (network.IsLoopback _).
Qed.

Lemma scan_addrs_none (addrs : list network.Addr) :
  network.scan_addrs addrs = None <->
  List.Forall (fun addr => ~ network.usable addr) addrs.
Proof.
  induction addrs as [| addr rest IH].
  - split; [constructor | reflexivity].
  - destruct (scan_addrs_step addr rest)
      as [(a & b & c & d & Hu & ->) | [Hn ->]].
    + split; [discriminate |].
      intros Hall. inversion Hall as [| ? ? Hno _]; subst.
      exfalso. apply Hno. now exists a, b, c, d.
    + rewrite IH. split.
      * now constructor.
      * intros Hall. now inversion Hall.
Qed.

Lemma scan_addrs_some (addrs : list network.Addr) (s : string) :
  network.scan_addrs addrs = Some s ->
  exists pre addr post a b c d,
    addrs = pre ++ addr :: post /\
    List.Forall (fun addr' => ~ network.usable addr') pre /\
    network.usable_as addr a b c d /\
    s = network.dotted [a; b; c; d].
Proof.
  induction addrs as [| addr rest IH]; [discriminate |].
  destruct (scan_addrs_step addr rest)
    as [(a & b & c & d & Hu & ->) | [Hn ->]].
  - intros [= <-]. exists [], addr, rest, a, b, c, d.
    split; [reflexivity | split; [constructor | split; [exact Hu | reflexivity]]].
  - intros Hs.
    destruct (IH Hs) as (pre & addr' & post & a & b & c & d & -> & Hpre & Hu & ->).
    exists (addr :: pre), addr', post, a, b, c, d.
    split; [reflexivity | split; [now constructor | split; [exact Hu | reflexivity]]].
Qed.

(** One step of the outer loop. *)
Lemma scan_interfaces_step
    (iface : network.Interface) (rest : list network.Interface) :
  (exists addrs s,
      network.lists iface addrs /\ network.scan_addrs addrs = Some s /\
      network.scan_interfaces (iface :: rest) = Some s) \/
  ((forall addrs, network.lists iface addrs -> network.scan_addrs addrs = None) /\
   network.scan_interfaces (iface :: rest) = network.scan_interfaces rest).
Proof.
  simpl.
  destruct (negb (Z.land (network.Flags iface) network.FlagLoopback =? 0) ||
            (Z.land (network.Flags iface) network.FlagUp =? 0)) eqn:Ef.
  - right. split; [| reflexivity].
    intros addrs (Hup & Hlo & _).
    assert (Hf := proj2 (skipped_iff_not_listed iface) (conj Hup Hlo)).
    rewrite Hf in Ef. discriminate.
  - apply skipped_iff_not_listed in Ef. destruct Ef as [Hup Hlo].
    destruct (network.Addrs iface) as [addrs | err] eqn:Ea.
    + destruct (network.scan_addrs addrs) as [s |] eqn:Es.
      * left. exists addrs, s. repeat split; assumption.
      * right. split; [| reflexivity].
        intros addrs' (_ & _ & Ha'). rewrite Ea in Ha'.
        injection Ha' as <-. exact Es.
    + right. split; [| reflexivity].
      intros addrs' (_ & _ & Ha'). rewrite Ea in Ha'. discriminate.
Qed.

(** X18. When the interface scan succeeds, its result is the dotted
    notation of an IPv4 address outside 127.0.0.0/8 that an interface
    lists which is up and not a loopback interface; and it is the first
    such address, in the order of the interfaces and of their addresses:
    no address before it on the same interface, and no address of an
    earlier such interface, is usable. *)
Theorem interface_scan_returns_the_first_usable_address
    (ifaces : list network.Interface) (s : string) :
  network.getLocalIPFromInterfaces (Ok ifaces) = Ok s ->
  exists before iface after addrs pre addr post a b c d,
    ifaces = before ++ iface :: after /\
    network.lists iface addrs /\
    addrs = pre ++ addr :: post /\
    network.usable_as addr a b c d /\
    s = itoa (network.ubyte a) +:+ "." +:+ itoa (network.ubyte b) +:+ "." +:+
        itoa (network.ubyte c) +:+ "." +:+ itoa (network.ubyte d) /\
    List.Forall (fun addr' => ~ network.usable addr') pre /\
    (forall iface' addrs',
        In iface' before -> network.lists iface' addrs' ->
        List.Forall (fun addr' => ~ network.usable addr') addrs').
Proof.
  unfold network.getLocalIPFromInterfaces.
  destruct (network.scan_interfaces ifaces) as [s' |] eqn:Es; [| discriminate].
  intros [= <-]. revert Es.
  induction ifaces as [| iface rest IH]; [discriminate |].
  destruct (scan_interfaces_step iface rest)
    as [(addrs & s0 & Hl & Hs & ->) | [Hn ->]].
  - intros [= <-].
    destruct (scan_addrs_some addrs s0 Hs)
      as (pre & addr & post & a & b & c & d & -> & Hpre & Hu & ->).
    exists [], iface, rest, (pre ++ addr :: post), pre, addr, post, a, b, c, d.
    repeat split; try apply Hl; try apply Hu; try assumption.
    intros ? ? [].
  - intros Hs.
    destruct (IH Hs) as (before & iface' & after & addrs & pre & addr & post &
                         a & b & c & d & -> & Hl & -> & Hu & Hd & Hpre & Hbefore).
    exists (iface :: before), iface', after, (pre ++ addr :: post),
           pre, addr, post, a, b, c, d.
    repeat split; try apply Hl; try apply Hu; try assumption.
    intros i' a' [<- | Hin] Hl'.
    + apply scan_addrs_none. now apply Hn.
    + now apply (Hbefore i' a').
Qed.

(** A loopback interface, an interface that is down, and a wireless
    interface with a link-local IPv6 address, the loopback address and
    192.168.1.10. *)
Lemma interface_scan_returns_the_first_usable_address_witness :
  network.getLocalIPFromInterfaces (Ok scenario.home_interfaces)
  = Ok "192.168.1.10" /\
  exists before iface after addrs pre addr post a b c d,
    scenario.home_interfaces = before ++ iface :: after /\
    network.lists iface addrs /\
    addrs = pre ++ addr :: post /\
    network.usable_as addr a b c d /\
    "192.168.1.10" =
      itoa (network.ubyte a) +:+ "." +:+ itoa (network.ubyte b) +:+ "." +:+
      itoa (network.ubyte c) +:+ "." +:+ itoa (network.ubyte d) /\
    List.Forall (fun addr' => ~ network.usable addr') pre /\
    (forall iface' addrs',
        In iface' before -> network.lists iface' addrs' ->
        List.Forall (fun addr' => ~ network.usable addr') addrs').
Proof.
  split; [vm_compute; reflexivity |].
  apply (interface_scan_returns_the_first_usable_address
           scenario.home_interfaces "192.168.1.10").
  vm_compute. reflexivity.
Defined.

(** X19. The interface scan fails with NoLocalIP exactly when no interface
    that is up and not a loopback interface lists a usable address; an
    interface whose addresses cannot be read is passed over and does not
    fail the scan.  When the interfaces themselves cannot be listed the
    error of the system is wrapped, and kept in the chain. *)
Theorem interface_scan_fails_only_without_a_usable_address
    (ifaces : list network.Interface) :
  (network.getLocalIPFromInterfaces (Ok ifaces) = Err network.NoLocalIP <->
   forall iface addrs addr,
     In iface ifaces -> network.lists iface addrs -> In addr addrs ->
     ~ network.usable addr) /\
  (forall e, network.getLocalIPFromInterfaces (Ok ifaces) = Err e ->
             e = network.NoLocalIP) /\
  (forall err e,
      network.getLocalIPFromInterfaces (Err err) = Err e <->
      e = Errorf_w "failed to get network interfaces: " err) /\
  (forall err s, network.getLocalIPFromInterfaces (Err err) <> Ok s).
Proof.
  split; [| split; [| split]].
  - unfold network.getLocalIPFromInterfaces.
    assert (Hnone : network.scan_interfaces ifaces = None <->
                    forall iface addrs addr,
                      In iface ifaces -> network.lists iface addrs ->
                      In addr addrs -> ~ network.usable addr).
    { induction ifaces as [| iface rest IH].
      - split; [intros _ ? ? ? [] | reflexivity].
      - destruct (scan_interfaces_step iface rest)
          as [(addrs & s0 & Hl & Hs & ->) | [Hn ->]].
        + split; [discriminate |].
          intros Hall. exfalso.
          assert (Hno : network.scan_addrs addrs = None).
          { apply scan_addrs_none. apply List.Forall_forall.
            intros addr Hin. apply (Hall iface addrs addr); simpl; auto. }
          rewrite Hno in Hs. discriminate.
        + rewrite IH. split.
          * intros Hall i a ad [<- | Hin] Hl Hina.
            -- specialize (Hn a Hl). apply scan_addrs_none in Hn.
               rewrite List.Forall_forall in Hn. now apply Hn.
            -- now apply (Hall i a ad).
          * intros Hall i a ad Hin. apply Hall. now right. }
    rewrite <- Hnone.
    destruct (network.scan_interfaces ifaces); split;
      intros E; try discriminate; reflexivity.
  - unfold network.getLocalIPFromInterfaces. intros e.
    destruct (network.scan_interfaces ifaces); [discriminate |].
    now intros [= <-].
  - intros err e. simpl. split; [now intros [= <-] | now intros ->].
  - intros err s. discriminate.
Qed.
(** ** The drawing of the code in package [qr] *)

Lemma div2_bounds (y : nat) :
  (2 * Nat.div2 y <= y <= 2 * Nat.div2 y + 1)%nat.
Proof.
  rewrite Nat.div2_div.
  pose proof (Nat.div_mod_eq y 2) as E.
  pose proof (Nat.mod_upper_bound y 2) as B. lia.
Qed.

Lemma div2_succ_lt (y size : nat) :
  (y < size -> Nat.div2 y < Nat.div2 (size + 1))%nat.
Proof.
  intros Hy.
  pose proof (div2_bounds y). pose proof (div2_bounds (size + 1)). lia.
Qed.

Lemma block_cons (upper lower : bool) (rest : string) :
  exists c tail, qr.block upper lower +:+ rest = String c tail /\ c <> "010"%char.
Proof.
  destruct upper, lower; eexists _, _; (split; [reflexivity | discriminate]).
Qed.

Lemma block_inj (u l u' l' : bool) (r r' : string) :
  qr.block u l +:+ r = qr.block u' l' +:+ r' -> u = u' /\ l = l' /\ r = r'.
Proof.
  destruct u, l, u', l'; cbv [qr.block andb negb]; rewrite ?append_cons, ?append_nil;
    intros E; try discriminate; injection E as <-; tauto.
Qed.

Lemma columns_inj (b1 b2 : list (list bool)) (s1 s2 y : nat) :
  forall (n1 n2 x : nat) (l1 l2 r1 r2 : string),
    qr.columns b1 s1 y n1 x = Some l1 ->
    qr.columns b2 s2 y n2 x = Some l2 ->
    l1 +:+ String "010" r1 = l2 +:+ String "010" r2 ->
    n1 = n2 /\ r1 = r2 /\
    forall i, (i < n1)%nat ->
              qr.cell b1 s1 y (x + i) = qr.cell b2 s2 y (x + i).
Proof.
  induction n1 as [| n1 IH]; intros [| n2] x l1 l2 r1 r2; simpl.
  - intros [= <-] [= <-]. rewrite !append_nil. intros [= <-].
    repeat split. intros i Hi. lia.
  - intros [= <-].
    destruct (qr.cell b2 s2 y x) as [[u l] |]; [| discriminate].
    destruct (qr.columns b2 s2 y n2 (S x)) as [rest |]; [| discriminate].
    intros [= <-]. rewrite append_nil, append_assoc.
    destruct (block_cons u l (rest +:+ String "010" r2)) as (c & tail & -> & Hc).
    intros [= E]. congruence.
  - destruct (qr.cell b1 s1 y x) as [[u l] |]; [| discriminate].
    destruct (qr.columns b1 s1 y n1 (S x)) as [rest |]; [| discriminate].
    intros [= <-] [= <-]. rewrite append_nil, append_assoc.
    destruct (block_cons u l (rest +:+ String "010" r1)) as (c & tail & -> & Hc).
    intros [= E]. congruence.
  - destruct (qr.cell b1 s1 y x) as [[u l] |] eqn:C1; [| discriminate].
    destruct (qr.columns b1 s1 y n1 (S x)) as [rest |] eqn:R1; [| discriminate].
    destruct (qr.cell b2 s2 y x) as [[u' l'] |] eqn:C2; [| discriminate].
    destruct (qr.columns b2 s2 y n2 (S x)) as [rest' |] eqn:R2; [| discriminate].
    intros [= <-] [= <-]. rewrite !append_assoc. intros E.
    apply block_inj in E. destruct E as (<- & <- & E).
    destruct (IH n2 (S x) rest rest' r1 r2 R1 R2 E) as (<- & <- & Hcells).
    repeat split. intros [| i] Hi.
    + rewrite Nat.add_0_r. now rewrite C1, C2.
    + replace (x + S i)%nat with (S x + i)%nat by lia. apply Hcells. lia.
Qed.

Lemma rows_inj (b1 b2 : list (list bool)) (s1 s2 : nat) :
  forall (n1 n2 y : nat) (t : string),
    qr.rows b1 s1 n1 y = Some t ->
    qr.rows b2 s2 n2 y = Some t ->
    n1 = n2 /\ ((0 < n1)%nat -> s1 = s2) /\
    forall j x, (j < n1)%nat -> (x < s1)%nat ->
                qr.cell b1 s1 (y + 2 * j) x = qr.cell b2 s2 (y + 2 * j) x.
Proof.
  induction n1 as [| n1 IH]; intros [| n2] y t; simpl.
  - intros _ _. repeat split; intros; lia.
  - intros [= <-].
    destruct (qr.columns b2 s2 y s2 0) as [line |]; [| discriminate].
    destruct (qr.rows b2 s2 n2 (y + 2)) as [rest |]; [| discriminate].
    destruct line; rewrite ?append_nil, ?append_cons; discriminate.
  - destruct (qr.columns b1 s1 y s1 0) as [line |]; [| discriminate].
    destruct (qr.rows b1 s1 n1 (y + 2)) as [rest |]; [| discriminate].
    intros [= <-].
    destruct line; rewrite ?append_nil, ?append_cons; discriminate.
  - destruct (qr.columns b1 s1 y s1 0) as [line |] eqn:L1; [| discriminate].
    destruct (qr.rows b1 s1 n1 (y + 2)) as [rest |] eqn:R1; [| discriminate].
    destruct (qr.columns b2 s2 y s2 0) as [line' |] eqn:L2; [| discriminate].
    destruct (qr.rows b2 s2 n2 (y + 2)) as [rest' |] eqn:R2; [| discriminate].
    intros [= <-] [= E]. symmetry in E.
    destruct (columns_inj b1 b2 s1 s2 y s1 s2 0%nat line line' rest rest' L1 L2 E)
      as (<- & <- & Hrow).
    destruct (IH n2 (y + 2)%nat rest R1 R2) as (<- & _ & Hrest).
    repeat split. intros [| j] x Hj Hx.
    + match goal with
      | |- qr.cell _ _ ?a _ = _ => replace a with y by lia
      end.
      exact (Hrow x Hx).
    + match goal with
      | |- qr.cell _ _ ?a _ = _ => replace a with (y + 2 + 2 * j)%nat by lia
      end.
      apply Hrest; lia.
Qed.

(** [bitmap[y][x]] is in range exactly below the lengths. *)
Lemma index2_is_Some (bitmap : list (list bool)) (y x : nat) :
  is_Some (qr.index2 bitmap y x) <->
  exists row, bitmap !! y = Some row /\ (x < length row)%nat.
Proof.
  unfold qr.index2. destruct (bitmap !! y) as [row |].
  - rewrite lookup_lt_is_Some. split.
    + intros Hx. now exists row.
    + now intros (row' & [= <-] & Hx).
  - split; [intros [? [=]] | intros (? & [=] & _)].
Qed.

Lemma cell_None (bitmap : list (list bool)) (size y x : nat) :
  qr.cell bitmap size y x = None <->
  qr.index2 bitmap y x = None \/
  ((y + 1 < size)%nat /\ qr.index2 bitmap (y + 1) x = None).
Proof.
  unfold qr.cell.
  destruct (qr.index2 bitmap y x) as [u |].
  - destruct (Nat.ltb_spec (y + 1) size) as [Hlt | Hge].
    + destruct (qr.index2 bitmap (y + 1) x); split; intros Hc;
        try discriminate; try tauto.
      destruct Hc as [| [_ ?]]; discriminate.
    + split; [discriminate |]. intros [| [? _]]; [discriminate | lia].
  - split; [now left | reflexivity].
Qed.

Lemma columns_None (bitmap : list (list bool)) (size y : nat) :
  forall n x,
    qr.columns bitmap size y n x = None <->
    exists i, (i < n)%nat /\ qr.cell bitmap size y (x + i) = None.
Proof.
  induction n as [| n IH]; intros x; simpl.
  - split; [discriminate | intros (i & Hi & _); lia].
  - destruct (qr.cell bitmap size y x) as [[u l] |] eqn:C.
    + specialize (IH (S x)).
      destruct (qr.columns bitmap size y n (S x)) as [rest |].
      * split; [discriminate |]. intros ([| i] & Hi & Hc).
        -- rewrite Nat.add_0_r, C in Hc. discriminate.
        -- assert (Hn : @None string = None) by reflexivity.
           assert (Hex : exists i0, (i0 < n)%nat /\
                                    qr.cell bitmap size y (S x + i0) = None).
           { exists i. split; [lia |].
             now replace (S x + i)%nat with (x + S i)%nat by lia. }
           apply IH in Hex. discriminate.
      * split; [| reflexivity]. intros _.
        destruct (proj1 IH eq_refl) as (i & Hi & Hc).
        exists (S i). split; [lia |].
        now replace (x + S i)%nat with (S x + i)%nat by lia.
    + split; [| reflexivity]. intros _. exists 0%nat.
      split; [lia |]. now rewrite Nat.add_0_r.
Qed.

Lemma rows_None (bitmap : list (list bool)) (size : nat) :
  forall n y,
    qr.rows bitmap size n y = None <->
    exists j x, (j < n)%nat /\ (x < size)%nat /\
                qr.cell bitmap size (y + 2 * j) x = None.
Proof.
  induction n as [| n IH]; intros y; simpl.
  - split; [discriminate | intros (j & x & Hj & _); lia].
  - pose proof (columns_None bitmap size y size 0) as Hcol.
    destruct (qr.columns bitmap size y size 0) as [line |].
    + specialize (IH (y + 2)%nat).
      destruct (qr.rows bitmap size n (y + 2)) as [rest |].
      * split; [discriminate |]. intros ([| j] & x & Hj & Hx & Hc).
        -- match type of Hc with
           | qr.cell _ _ ?a _ = _ => replace a with y in Hc by lia
           end.
           assert (Hex : exists i, (i < size)%nat /\
                                   qr.cell bitmap size y (0 + i) = None)
             by (exists x; now split).
           apply Hcol in Hex. discriminate.
        -- assert (Hex : exists j0 x0, (j0 < n)%nat /\ (x0 < size)%nat /\
                           qr.cell bitmap size (y + 2 + 2 * j0) x0 = None).
           { exists j, x. split; [lia |]. split; [exact Hx |].
             match type of Hc with
             | qr.cell _ _ ?a _ = _ =>
                 replace a with (y + 2 + 2 * j)%nat in Hc by lia
             end.
             exact Hc. }
           apply IH in Hex. discriminate.
      * split; [| reflexivity]. intros _.
        destruct (proj1 IH eq_refl) as (j & x & Hj & Hx & Hc).
        exists (S j), x. split; [lia |]. split; [exact Hx |].
        match goal with
        | |- qr.cell _ _ ?a _ = _ => replace a with (y + 2 + 2 * j)%nat by lia
        end.
        exact Hc.
    + split; [| reflexivity]. intros _.
      destruct (proj1 Hcol eq_refl) as (x & Hx & Hc).
      exists 0%nat, x. split; [lia |]. split; [exact Hx |].
      match goal with
      | |- qr.cell _ _ ?a _ = _ => replace a with y by lia
      end.
      exact Hc.
Qed.

(** X20. The drawing loops index the bitmap out of range, and so panic,
    exactly when some row has fewer modules than the bitmap has rows; in
    particular they never panic on a square bitmap (and not on the empty
    one, whose drawing is the empty string), so [GenerateQRString] returns
    whenever the encoder gives it a square bitmap. *)
Theorem draw_panics_exactly_on_a_short_row (bitmap : list (list bool)) :
  (qr.draw bitmap = None <->
   exists row, In row bitmap /\ (length row < length bitmap)%nat) /\
  (qr.square bitmap -> exists s, qr.draw bitmap = Some s) /\
  qr.draw [] = Some EmptyString /\
  (forall encode url,
      encode url = Ok bitmap -> qr.square bitmap ->
      exists s, qr.GenerateQRString encode url = Some (Ok s) /\
                qr.draw bitmap = Some s).
Proof.
  assert (Hmain : qr.draw bitmap = None <->
                  exists row, In row bitmap /\ (length row < length bitmap)%nat).
  { unfold qr.draw. rewrite rows_None. split.
    - intros (j & x & Hj & Hx & Hc). rewrite Nat.add_0_l in Hc.
      apply cell_None in Hc.
      pose proof (div2_bounds (length bitmap + 1)) as Hb.
      assert (Hshort : forall y, (y < length bitmap)%nat ->
                                 qr.index2 bitmap y x = None ->
                                 exists row, In row bitmap /\
                                             (length row < length bitmap)%nat).
      { intros y Hy Hi.
        destruct (lookup_lt_is_Some_2 bitmap y Hy) as [row Hrow].
        exists row. split.
        - apply list_elem_of_In. now apply (list_elem_of_lookup_2 _ y).
        - destruct (Nat.lt_ge_cases x (length row)) as [Hlt | Hge]; [| lia].
          exfalso.
          assert (Hs : is_Some (qr.index2 bitmap y x)).
          { apply index2_is_Some. now exists row. }
          rewrite Hi in Hs. now destruct Hs. }
      destruct Hc as [Hi | [Hlt Hi]].
      + apply (Hshort (2 * j)%nat); [lia | exact Hi].
      + apply (Hshort (2 * j + 1)%nat); [lia | exact Hi].
    - intros (row & Hin & Hlen).
      apply list_elem_of_In, list_elem_of_lookup in Hin. destruct Hin as [y Hy].
      assert (Hylt : (y < length bitmap)%nat)
        by (apply lookup_lt_is_Some; now exists row).
      exists (Nat.div2 y), (length bitmap - 1)%nat.
      split; [now apply div2_succ_lt |]. split; [lia |].
      rewrite Nat.add_0_l. apply cell_None.
      assert (Hnone : qr.index2 bitmap y (length bitmap - 1) = None).
      { unfold qr.index2. rewrite Hy. apply lookup_ge_None. lia. }
      pose proof (div2_bounds y) as Hb.
      destruct (Nat.eq_dec y (2 * Nat.div2 y)%nat) as [E | NE].
      + left. now rewrite <- E.
      + right. replace (2 * Nat.div2 y + 1)%nat with y by lia.
        split; [lia | exact Hnone]. }
  assert (Hsquare : qr.square bitmap -> exists s, qr.draw bitmap = Some s);
    [| split; [exact Hmain |]; split; [exact Hsquare |]; split; [reflexivity |];
       intros encode url He Hsq; destruct (Hsquare Hsq) as [s Hs]; exists s;
       unfold qr.GenerateQRString; rewrite He, Hs; split; reflexivity].
  intros Hsq. clear - Hmain Hsq. destruct (qr.draw bitmap) as [s |] eqn:E; [now exists s |].
  exfalso. destruct (proj1 Hmain eq_refl) as (row & Hin & Hlen).
  unfold qr.square in Hsq. rewrite List.Forall_forall in Hsq.
  specialize (Hsq row Hin). lia.
Qed.

(** X21. The drawing loses nothing: two square bitmaps with the same
    drawing are the same bitmap, of the same size. *)
Theorem draw_is_injective_on_square_bitmaps (b1 b2 : list (list bool)) :
  qr.square b1 -> qr.square b2 -> qr.draw b1 = qr.draw b2 -> b1 = b2.
Proof.
  intros Hs1 Hs2 Heq.
  assert (Hd1 : exists s, qr.draw b1 = Some s).
  { destruct (qr.draw b1) as [s |] eqn:E; [now exists s |].
    exfalso. unfold qr.draw in E. apply rows_None in E.
    destruct E as (j & x & Hj & Hx & Hc). rewrite Nat.add_0_l in Hc.
    apply cell_None in Hc.
    pose proof (div2_bounds (length b1 + 1)) as Hb.
    assert (Hin : forall y, (y < length b1)%nat -> qr.index2 b1 y x <> None).
    { intros y Hy Hn.
      destruct (lookup_lt_is_Some_2 b1 y Hy) as [row Hrow].
      assert (Hs : is_Some (qr.index2 b1 y x)).
      { apply index2_is_Some. exists row. split; [exact Hrow |].
        unfold qr.square in Hs1.
        rewrite (Forall_lookup_1 _ _ _ _ Hs1 Hrow). exact Hx. }
      rewrite Hn in Hs. now destruct Hs. }
    destruct Hc as [Hi | [Hlt Hi]].
    - apply (Hin (2 * j)%nat); [lia | exact Hi].
    - apply (Hin (2 * j + 1)%nat); [lia | exact Hi]. }
  destruct Hd1 as [s Hd1]. rewrite Hd1 in Heq. symmetry in Heq.
  unfold qr.draw in Hd1, Heq.
  destruct (rows_inj b1 b2 _ _ _ _ _ _ Hd1 Heq) as (Hn & Hsize & Hcells).
  assert (Hlen : length b1 = length b2).
  { pose proof (div2_bounds (length b1 + 1)).
    pose proof (div2_bounds (length b2 + 1)).
    destruct (Nat.eq_dec (length b1) 0%nat) as [Hz | Hnz].
    - rewrite Hz in *. simpl in Hn. lia.
    - apply Hsize. lia. }
  clear Hsize Hn.
  assert (Hidx : forall y x, (y < length b1)%nat -> (x < length b1)%nat ->
                             qr.index2 b1 y x = qr.index2 b2 y x).
  { intros y x Hy Hx.
    pose proof (div2_bounds y) as Hb.
    specialize (Hcells (Nat.div2 y) x (div2_succ_lt y _ Hy) Hx).
    rewrite Nat.add_0_l in Hcells. rewrite <- Hlen in Hcells.
    unfold qr.cell in Hcells.
    assert (Hdef : forall b y', length b = length b1 -> qr.square b ->
                                (y' < length b1)%nat ->
                                is_Some (qr.index2 b y' x)).
    { intros b y' Hl Hsq Hy'. apply index2_is_Some.
      destruct (lookup_lt_is_Some_2 b y' ltac:(lia)) as [row Hrow].
      exists row. split; [exact Hrow |]. unfold qr.square in Hsq.
      rewrite (Forall_lookup_1 _ _ _ _ Hsq Hrow). lia. }
    destruct (Hdef b1 (2 * Nat.div2 y)%nat eq_refl Hs1 ltac:(lia)) as [u1 Hu1].
    destruct (Hdef b2 (2 * Nat.div2 y)%nat (eq_sym Hlen) Hs2 ltac:(lia))
      as [u2 Hu2].
    rewrite Hu1, Hu2 in Hcells.
    destruct (Nat.eq_dec y (2 * Nat.div2 y)%nat) as [E | NE].
    - rewrite E, Hu1, Hu2.
      destruct (Nat.ltb_spec (2 * Nat.div2 y + 1) (length b1)) as [Hlt | Hge].
      + destruct (Hdef b1 (2 * Nat.div2 y + 1)%nat eq_refl Hs1 Hlt) as [l1 Hl1].
        destruct (Hdef b2 (2 * Nat.div2 y + 1)%nat (eq_sym Hlen) Hs2 Hlt)
          as [l2 Hl2].
        rewrite Hl1, Hl2 in Hcells. congruence.
      + congruence.
    - assert (Ey : y = (2 * Nat.div2 y + 1)%nat) by lia.
      rewrite <- Ey in Hcells.
      destruct (Nat.ltb_spec (y + 1) (length b1)) as [_ | ?];
        destruct (Nat.ltb_spec y (length b1)) as [_ | ?]; try lia;
        destruct (qr.index2 b1 y x), (qr.index2 b2 y x); congruence. }
  apply list_eq. intros y.
  destruct (Nat.lt_ge_cases y (length b1)) as [Hy | Hy].
  - destruct (lookup_lt_is_Some_2 b1 y Hy) as [r1 Hr1].
    destruct (lookup_lt_is_Some_2 b2 y ltac:(lia)) as [r2 Hr2].
    rewrite Hr1, Hr2. f_equal.
    assert (Hl1 : length r1 = length b1)
      by exact (Forall_lookup_1 _ _ _ _ Hs1 Hr1).
    assert (Hl2 : length r2 = length b2)
      by exact (Forall_lookup_1 _ _ _ _ Hs2 Hr2).
    apply list_eq. intros x.
    destruct (Nat.lt_ge_cases x (length b1)) as [Hx | Hx].
    + specialize (Hidx y x Hy Hx). unfold qr.index2 in Hidx.
      now rewrite Hr1, Hr2 in Hidx.
    + rewrite !lookup_ge_None_2 by lia. reflexivity.
  - rewrite !lookup_ge_None_2 by lia. reflexivity.
Qed.

Lemma draw_is_injective_on_square_bitmaps_witness :
  qr.draw [[true; false; true]; [false; true; true]; [true; true; false]]
  = Some ("▀▄█" +:+ String "010" ("▀▀ " +:+ String "010" EmptyString)) /\
  forall b2,
    qr.square b2 ->
    qr.draw [[true; false; true]; [false; true; true]; [true; true; false]]
    = qr.draw b2 ->
    [[true; false; true]; [false; true; true]; [true; true; false]] = b2.
Proof.
  split; [vm_compute; reflexivity |].
  intros b2 Hsq.
  apply (draw_is_injective_on_square_bitmaps
           [[true; false; true]; [false; true; true]; [true; true; false]] b2).
  - repeat constructor.
  - exact Hsq.
Defined.
(** ** Which arguments are ports *)

Lemma digits_val_uint (d : Decimal.uint) :
  forall acc : positive,
    digits_val (Z.pos acc) (NilEmpty.string_of_uint d) =
    Some (Z.pos (Pos.of_uint_acc d acc)).
Proof.
  induction d as [| d IH | d IH | d IH | d IH | d IH | d IH | d IH | d IH | d IH | d IH];
    intros acc; [reflexivity | ..];
    cbn [NilEmpty.string_of_uint digits_val Pos.of_uint_acc];
    match goal with
    | |- context [digit_val ?c] =>
        let v := eval vm_compute in (digit_val c) in
        change (digit_val c) with v; cbv iota
    end;
    rewrite <- IH; f_equal; lia.
Qed.

Lemma digits_val_uint_0 (d : Decimal.uint) :
  digits_val 0 (NilEmpty.string_of_uint d) = Some (Z.of_N (Pos.of_uint d)).
Proof.
  induction d as [| d IH | d IH | d IH | d IH | d IH | d IH | d IH | d IH | d IH | d IH];
    [reflexivity | exact IH | ..];
    cbn [NilEmpty.string_of_uint digits_val Pos.of_uint];
    match goal with
    | |- context [digit_val ?c] =>
        let v := eval vm_compute in (digit_val c) in
        change (digit_val c) with v; cbv iota
    end;
    match goal with
    | |- digits_val ?a _ = _ =>
        let v := eval vm_compute in a in change a with v
    end;
    rewrite digits_val_uint; reflexivity.
Qed.

Lemma itoa_pos (p : positive) :
  itoa (Z.pos p) = NilEmpty.string_of_uint (Pos.to_uint p) /\
  itoa (Z.pos p) <> EmptyString.
Proof.
  unfold itoa. cbn [Z.to_int NilZero.string_of_int].
  pose proof (DecimalPos.Unsigned.to_uint_nonnil p) as Hn.
  destruct (Pos.to_uint p) eqn:E; try (now elim Hn); split;
    try reflexivity; discriminate.
Qed.

Lemma digits_val_itoa (n : Z) : 0 <= n -> digits_val 0 (itoa n) = Some n.
Proof.
  intros Hn. destruct n as [| p | p]; [reflexivity | | lia].
  rewrite (proj1 (itoa_pos p)), digits_val_uint_0.
  now rewrite DecimalPos.Unsigned.of_to.
Qed.

Lemma itoa_nonempty (n : Z) : 0 <= n -> itoa n <> EmptyString.
Proof.
  intros Hn. destruct n as [| p | p]; [discriminate | | lia].
  apply itoa_pos.
Qed.

Lemma digits_val_zeros (zeros : nat) (s : string) :
  digits_val 0 (Nat.iter zeros (String "0") s) = digits_val 0 s.
Proof. induction zeros as [| k IH]; [reflexivity | exact IH]. Qed.

Lemma unsigned_val_decimal (zeros : nat) (n : Z) :
  0 <= n -> unsigned_val (Nat.iter zeros (String "0") (itoa n)) = Some n.
Proof.
  intros Hn. unfold unsigned_val.
  assert (Hd : digits_val 0 (Nat.iter zeros (String "0") (itoa n)) = Some n)
    by (rewrite digits_val_zeros; now apply digits_val_itoa).
  destruct (Nat.iter zeros (String "0") (itoa n)) eqn:E; [| exact Hd].
  exfalso. destruct zeros; simpl in E; [| discriminate].
  now apply (itoa_nonempty n Hn).
Qed.

(** A string whose first byte is a digit has no sign. *)
Lemma Atoi_unsigned (s : string) (n : Z) :
  unsigned_val s = Some n ->
  Atoi s = if (int_min <=? n) && (n <=? int_max) then Some n else None.
Proof.
  destruct s as [| c s']; [discriminate |].
  intros Hu. unfold Atoi.
  assert (Hc : c <> "+"%char /\ c <> "-"%char).
  { split; intros ->; discriminate Hu. }
  destruct Hc as [Hp Hm].
  destruct c as [[] [] [] [] [] [] [] []];
    try (now elim Hp); try (now elim Hm); now rewrite Hu.
Qed.

Lemma Atoi_decimal (plus : bool) (zeros : nat) (n : Z) :
  0 <= n <= int_max ->
  Atoi ((if plus then "+" else EmptyString) +:+
        Nat.iter zeros (String "0") (itoa n)) = Some n.
Proof.
  intros Hn.
  assert (Hr : (int_min <=? n) && (n <=? int_max) = true).
  { unfold int_min, int_max in *.
    apply andb_true_iff. split; apply Z.leb_le; lia. }
  pose proof (unsigned_val_decimal zeros n ltac:(lia)) as Hu.
  destruct plus.
  - rewrite append_cons, append_nil. unfold Atoi. rewrite Hu, Hr. reflexivity.
  - rewrite append_nil, (Atoi_unsigned _ n Hu), Hr. reflexivity.
Qed.

(** X22. Every port from 1 to 65535 passes the validation of [runQRLocal]
    in decimal notation, with or without a plus sign and leading zeros: the
    first thing such a run does is dial that port, and apart from that it
    is the run on the plain decimal form. *)
Theorem decimal_ports_pass_validation `{Runtime}
    (w : World) (cmd : main.Command) (s : main.State)
    (port : Z) (plus : bool) (zeros : nat) :
  1 <= port <= 65535 ->
  let arg := (if plus then "+" else EmptyString) +:+
             Nat.iter zeros (String "0") (itoa port) in
  Atoi arg = Some port /\
  main.runQRLocal w cmd arg s = main.runQRLocal w cmd (itoa port) s /\
  exists rest,
    snd (main.runQRLocal w cmd arg s) =
    EvDial ("127.0.0.1:" +:+ itoa port) :: rest.
Proof.
  intros Hp arg.
  assert (Hmax : 0 <= port <= int_max) by (unfold int_max; lia).
  assert (Ha : Atoi arg = Some port) by exact (Atoi_decimal plus zeros port Hmax).
  assert (Hi : Atoi (itoa port) = Some port)
    by exact (Atoi_decimal false 0 port Hmax).
  assert (Hr : (port <? 1) || (port >? 65535) = false).
  { rewrite Z.gtb_ltb. apply orb_false_iff. split; apply Z.ltb_ge; lia. }
  split; [exact Ha |]. split.
  - unfold main.runQRLocal. rewrite Ha, Hi, Hr. reflexivity.
  - unfold main.runQRLocal, network.IsPortActive. unfold_run.
    rewrite Ha, Hr. reduce_run.
    repeat step_run; eexists; reflexivity.
Qed.

Lemma decimal_ports_pass_validation_witness :
  Atoi "+0080" = Some 80 /\
  @main.runQRLocal subset_runtime scenario.lhr_world scenario.no_flag_changed
    "+0080" (scenario.flags false EmptyString)
  = @main.runQRLocal subset_runtime scenario.lhr_world scenario.no_flag_changed
      "80" (scenario.flags false EmptyString) /\
  exists rest,
    snd (@main.runQRLocal subset_runtime scenario.lhr_world
           scenario.no_flag_changed "+0080" (scenario.flags false EmptyString))
    = EvDial "127.0.0.1:80" :: rest.
Proof.
  exact (@decimal_ports_pass_validation subset_runtime scenario.lhr_world
           scenario.no_flag_changed (scenario.flags false EmptyString)
           80 true 2 ltac:(lia)).
Defined.
(** ** The listing of the configured providers *)

Lemma range_keys_In
    (range_keys : gmap string config.ProviderConfig -> list string)
    (m : gmap string config.ProviderConfig) (k : string) :
  config.range_visits_each_key_once range_keys ->
  In k (range_keys m) <-> is_Some (m !! k).
Proof.
  intros Hr. rewrite <- list_elem_of_In, (Hr m), list_elem_of_fmap. split.
  - intros ([k' v] & -> & Hin). apply elem_of_map_to_list in Hin.
    now exists v.
  - intros [v Hv]. exists (k, v). split; [reflexivity |].
    now apply elem_of_map_to_list.
Qed.

(** X23. [ListProviders] has one entry for every entry of the two tables
    of the configuration, whatever the order in which the runtime visits
    them: a key of the built-in table as it is, a key of the custom table
    with the suffix " (custom)".  So every name that [GetProvider]
    resolves is listed, as it is or with the suffix; and a name in both
    tables is listed twice, although [GetProvider] only ever returns its
    built-in entry. *)
Theorem ListProviders_lists_every_table_entry
    (range_keys : gmap string config.ProviderConfig -> list string)
    (c : config.Config) :
  config.range_visits_each_key_once range_keys ->
  length (config.ListProviders range_keys c) =
    (size (config.Providers c) + size (config.CustomProviders c))%nat /\
  (forall entry,
      In entry (config.ListProviders range_keys c) <->
      is_Some (config.Providers c !! entry) \/
      exists name, is_Some (config.CustomProviders c !! name) /\
                   entry = name +:+ " (custom)") /\
  (forall name,
      is_Some (config.GetProvider c name) ->
      In name (config.ListProviders range_keys c) \/
      In (name +:+ " (custom)") (config.ListProviders range_keys c)) /\
  (forall name p q,
      config.Providers c !! name = Some p ->
      config.CustomProviders c !! name = Some q ->
      In name (config.ListProviders range_keys c) /\
      In (name +:+ " (custom)") (config.ListProviders range_keys c) /\
      config.GetProvider c name = Some p) /\
  (forall range_keys',
      config.range_visits_each_key_once range_keys' ->
      config.ListProviders range_keys c ≡ₚ config.ListProviders range_keys' c).
Proof.
  intros Hr.
  assert (Hentry : forall entry,
             In entry (config.ListProviders range_keys c) <->
             is_Some (config.Providers c !! entry) \/
             exists name, is_Some (config.CustomProviders c !! name) /\
                          entry = name +:+ " (custom)").
  { intros entry. unfold config.ListProviders.
    rewrite in_app_iff, in_map_iff, (range_keys_In _ _ _ Hr). split.
    - intros [Hb | (name & <- & Hin)]; [now left | right].
      exists name. split; [| reflexivity].
      now apply (range_keys_In range_keys).
    - intros [Hb | (name & Hs & ->)]; [now left | right].
      exists name. split; [reflexivity |].
      now apply (range_keys_In range_keys). }
  split; [| split; [exact Hentry | split; [| split]]].
  - unfold config.ListProviders.
    rewrite length_app, length_map, !(Hr _), !length_fmap, !length_map_to_list.
    reflexivity.
  - intros name Hs. unfold config.GetProvider in Hs.
    destruct (config.Providers c !! name) as [p |] eqn:Ep.
    + left. apply Hentry. left. rewrite Ep. now exists p.
    + right. apply Hentry. right. exists name. split; [| reflexivity].
      destruct (config.CustomProviders c !! name) as [q |]; [now exists q |].
      now destruct Hs.
  - intros name p q Hp Hq. split; [| split].
    + apply Hentry. left. rewrite Hp. now exists p.
    + apply Hentry. right. exists name. split; [| reflexivity].
      rewrite Hq. now exists q.
    + unfold config.GetProvider. now rewrite Hp.
  - intros range_keys' Hr'. unfold config.ListProviders.
    apply Permutation_app.
    + now rewrite (Hr _), (Hr' _).
    + apply Permutation_map. now rewrite (Hr _), (Hr' _).
Qed.

(** The default configuration with a custom provider [pinggy] added. *)
Lemma ListProviders_lists_every_table_entry_witness :
  let c :=
    {| config.DefaultProvider := "pinggy";
       config.CopyToClipboard := false;
       config.QuietMode := false;
       config.Providers := config.Providers config.DefaultConfig;
       config.CustomProviders :=
         <["pinggy" := {| config.Host := "tunnel.example"; config.Port := 2222;
                          config.User := "me";
                          config.URLRegex := "https://[a-z]+\.example" |}]> ∅ |} in
  length (config.ListProviders config.range_listed c) = 5%nat /\
  In "pinggy" (config.ListProviders config.range_listed c) /\
  In "pinggy (custom)" (config.ListProviders config.range_listed c) /\
  option_map config.Host (config.GetProvider c "pinggy") = Some "a.pinggy.io".
Proof.
  intros c.
  destruct (ListProviders_lists_every_table_entry config.range_listed c)
    as (Hlen & _ & _ & Hboth & _).
  - intros m. reflexivity.
  - split; [rewrite Hlen; vm_compute; reflexivity |].
    destruct (Hboth "pinggy"
                {| config.Host := "a.pinggy.io"; config.Port := 443;
                   config.User := "a";
                   config.URLRegex := "https://[a-zA-Z0-9-]+\.a\.free\.pinggy\.link" |}
                {| config.Host := "tunnel.example"; config.Port := 2222;
                   config.User := "me";
                   config.URLRegex := "https://[a-z]+\.example" |})
      as (H1 & H2 & H3); [vm_compute; reflexivity | vm_compute; reflexivity |].
    split; [exact H1 |]. split; [exact H2 |]. now rewrite H3.
Defined.
